(** * MCJars front page: selection state and jar identification

    A shallow embedding of [src/App.tsx]: the component's state, its
    effects and its event handlers, as functions on an explicit state
    record.  JavaScript's [undefined]/[null], its truthiness test, its
    strict equality and the [TypeError] raised by a property read on
    [undefined] are written out, since several properties depend on them. *)

From Stdlib Require Import ZArith List String Ascii Bool Lia.
From Stdlib Require Strings.Byte.
Import ListNotations.
Local Open Scope string_scope.
Local Open Scope Z_scope.

(** ** JavaScript values *)

Module JS.

(** A value that may be missing in either of JavaScript's two ways. *)
Inductive maybe (A : Type) : Type :=
| undefined
| null
| val (a : A).
Arguments undefined {A}.
Arguments null {A}.
Arguments val {A} a.

(** An evaluation either completes or throws. *)
Inductive error : Type := TypeError.

Inductive completion (A : Type) : Type :=
| Normal (a : A)
| Throw (e : error).
Arguments Normal {A} a.
Arguments Throw {A} e.

(** [a ?? b] *)
Definition nullish {A} (a b : maybe A) : maybe A :=
  match a with
  | val _ => a
  | _ => b
  end.

(** [a === b] on [string | null | undefined] *)
Definition strictEq (a b : maybe string) : bool :=
  match a, b with
  | undefined, undefined => true
  | null, null => true
  | val x, val y => String.eqb x y
  | _, _ => false
  end.

(** Truthiness of [string | null | undefined]: the empty string is falsy. *)
Definition truthyString (a : maybe string) : bool :=
  match a with
  | val s => negb (String.eqb s "")
  | _ => false
  end.

(** Truthiness of [boolean | null | undefined]. *)
Definition truthyBool (a : maybe bool) : bool :=
  match a with
  | val b => b
  | _ => false
  end.

(** [Array.prototype.findIndex]: the index of the first match, [-1] if none. *)
Fixpoint findIndexFrom {A} (p : A -> bool) (l : list A) (i : Z) : Z :=
  match l with
  | [] => -1
  | x :: r => if p x then i else findIndexFrom p r (i + 1)
  end.

Definition findIndex {A} (p : A -> bool) (l : list A) : Z :=
  findIndexFrom p l 0.

(** [l[i]]: [undefined] outside the array. *)
Definition index {A} (l : list A) (i : Z) : option A :=
  if i <? 0 then None else nth_error l (Z.to_nat i).

End JS.
Import JS.

Infix "??" := nullish (at level 45, right associativity).
Infix "===" := strictEq (at level 65, no associativity).

(** ** Catalog data *)

(** Modelled from the spec: the declaration of a version's [type] tag lives
    in [@/api/versions], which is not part of the sources at hand; the data
    model gives it as [RELEASE | SNAPSHOT | absent]. *)
Inductive VersionType : Type := RELEASE | SNAPSHOT.

Module MinecraftType.
Record t : Type := {
  identifier : string;
  name : string;
  icon : string;
  categories : list string;
  compatibility : list string;
  experimental : bool;
  deprecated : bool;
  builds : Z
}.
End MinecraftType.

Module Version.
Record Latest : Type := {
  versionId : maybe string;
  projectVersionId : maybe string
}.

Record t : Type := {
  latest : Latest;
  type : maybe VersionType;
  builds : Z
}.

(** [v.latest.versionId ?? v.latest.projectVersionId] *)
Definition derivedId (v : t) : maybe string :=
  versionId (latest v) ?? projectVersionId (latest v).

(** [v.type === 'RELEASE'] *)
Definition isRelease (v : t) : bool :=
  match type v with
  | val RELEASE => true
  | _ => false
  end.

(** [v.type === 'SNAPSHOT'] *)
Definition isSnapshot (v : t) : bool :=
  match type v with
  | val SNAPSHOT => true
  | _ => false
  end.

(** [!v.type] *)
Definition untagged (v : t) : bool :=
  match type v with
  | val _ => false
  | _ => true
  end.
End Version.

Module Build.
Record t : Type := {
  id : Z;
  type : string;
  versionId : maybe string;
  projectVersionId : maybe string;
  buildNumber : Z;
  jarSize : maybe Z;
  zipSize : maybe Z;
  jarUrl : maybe string;
  zipUrl : maybe string;
  jarLocation : maybe string;
  created : string
}.
End Build.

Definition PartialMinecraftBuild : Type := Build.t.

(** ** Component state

    The seven pieces of state of [App], the four values handed to a
    render by [useSWR] ([None] while the key has no data), and the keys
    whose data the [useSWR] cache holds: a key seen before gets its data
    back at once, without a request. *)

Record App : Type := {
  includeSnapshots : maybe bool;
  type : maybe string;
  version : maybe string;
  build : option PartialMinecraftBuild;
  isDragging : bool;
  isJarDropLoading : bool;
  jarDropBuild : option PartialMinecraftBuild;
  types : option (list MinecraftType.t);
  versions : option (list Version.t);
  validatingVersions : bool;
  builds : option (list PartialMinecraftBuild);
  validatingBuilds : bool;
  versionsCache : list string;
  buildsCache : list (string * string)
}.

Definition setIncludeSnapshots (x : maybe bool) (s : App) : App :=
  {| includeSnapshots := x; type := type s; version := version s;
     build := build s; isDragging := isDragging s;
     isJarDropLoading := isJarDropLoading s; jarDropBuild := jarDropBuild s;
     types := types s; versions := versions s;
     validatingVersions := validatingVersions s; builds := builds s;
     validatingBuilds := validatingBuilds s;
     versionsCache := versionsCache s; buildsCache := buildsCache s |}.

Definition setType (x : maybe string) (s : App) : App :=
  {| includeSnapshots := includeSnapshots s; type := x; version := version s;
     build := build s; isDragging := isDragging s;
     isJarDropLoading := isJarDropLoading s; jarDropBuild := jarDropBuild s;
     types := types s; versions := versions s;
     validatingVersions := validatingVersions s; builds := builds s;
     validatingBuilds := validatingBuilds s;
     versionsCache := versionsCache s; buildsCache := buildsCache s |}.

Definition setVersion (x : maybe string) (s : App) : App :=
  {| includeSnapshots := includeSnapshots s; type := type s; version := x;
     build := build s; isDragging := isDragging s;
     isJarDropLoading := isJarDropLoading s; jarDropBuild := jarDropBuild s;
     types := types s; versions := versions s;
     validatingVersions := validatingVersions s; builds := builds s;
     validatingBuilds := validatingBuilds s;
     versionsCache := versionsCache s; buildsCache := buildsCache s |}.

Definition setBuild (x : option PartialMinecraftBuild) (s : App) : App :=
  {| includeSnapshots := includeSnapshots s; type := type s;
     version := version s; build := x; isDragging := isDragging s;
     isJarDropLoading := isJarDropLoading s; jarDropBuild := jarDropBuild s;
     types := types s; versions := versions s;
     validatingVersions := validatingVersions s; builds := builds s;
     validatingBuilds := validatingBuilds s;
     versionsCache := versionsCache s; buildsCache := buildsCache s |}.

Definition setIsDragging (x : bool) (s : App) : App :=
  {| includeSnapshots := includeSnapshots s; type := type s;
     version := version s; build := build s; isDragging := x;
     isJarDropLoading := isJarDropLoading s; jarDropBuild := jarDropBuild s;
     types := types s; versions := versions s;
     validatingVersions := validatingVersions s; builds := builds s;
     validatingBuilds := validatingBuilds s;
     versionsCache := versionsCache s; buildsCache := buildsCache s |}.

Definition setIsJarDropLoading (x : bool) (s : App) : App :=
  {| includeSnapshots := includeSnapshots s; type := type s;
     version := version s; build := build s; isDragging := isDragging s;
     isJarDropLoading := x; jarDropBuild := jarDropBuild s;
     types := types s; versions := versions s;
     validatingVersions := validatingVersions s; builds := builds s;
     validatingBuilds := validatingBuilds s;
     versionsCache := versionsCache s; buildsCache := buildsCache s |}.

Definition setJarDropBuild (x : option PartialMinecraftBuild) (s : App) : App :=
  {| includeSnapshots := includeSnapshots s; type := type s;
     version := version s; build := build s; isDragging := isDragging s;
     isJarDropLoading := isJarDropLoading s; jarDropBuild := x;
     types := types s; versions := versions s;
     validatingVersions := validatingVersions s; builds := builds s;
     validatingBuilds := validatingBuilds s;
     versionsCache := versionsCache s; buildsCache := buildsCache s |}.

Definition setTypes (x : option (list MinecraftType.t)) (s : App) : App :=
  {| includeSnapshots := includeSnapshots s; type := type s;
     version := version s; build := build s; isDragging := isDragging s;
     isJarDropLoading := isJarDropLoading s; jarDropBuild := jarDropBuild s;
     types := x; versions := versions s;
     validatingVersions := validatingVersions s; builds := builds s;
     validatingBuilds := validatingBuilds s;
     versionsCache := versionsCache s; buildsCache := buildsCache s |}.

Definition setVersions (x : option (list Version.t)) (validating : bool)
    (s : App) : App :=
  {| includeSnapshots := includeSnapshots s; type := type s;
     version := version s; build := build s; isDragging := isDragging s;
     isJarDropLoading := isJarDropLoading s; jarDropBuild := jarDropBuild s;
     types := types s; versions := x;
     validatingVersions := validating; builds := builds s;
     validatingBuilds := validatingBuilds s;
     versionsCache := versionsCache s; buildsCache := buildsCache s |}.

Definition setBuilds (x : option (list PartialMinecraftBuild))
    (validating : bool) (s : App) : App :=
  {| includeSnapshots := includeSnapshots s; type := type s;
     version := version s; build := build s; isDragging := isDragging s;
     isJarDropLoading := isJarDropLoading s; jarDropBuild := jarDropBuild s;
     types := types s; versions := versions s;
     validatingVersions := validatingVersions s; builds := x;
     validatingBuilds := validating;
     versionsCache := versionsCache s; buildsCache := buildsCache s |}.

Definition setVersionsCache (x : list string) (s : App) : App :=
  {| includeSnapshots := includeSnapshots s; type := type s;
     version := version s; build := build s; isDragging := isDragging s;
     isJarDropLoading := isJarDropLoading s; jarDropBuild := jarDropBuild s;
     types := types s; versions := versions s;
     validatingVersions := validatingVersions s; builds := builds s;
     validatingBuilds := validatingBuilds s;
     versionsCache := x; buildsCache := buildsCache s |}.

Definition setBuildsCache (x : list (string * string)) (s : App) : App :=
  {| includeSnapshots := includeSnapshots s; type := type s;
     version := version s; build := build s; isDragging := isDragging s;
     isJarDropLoading := isJarDropLoading s; jarDropBuild := jarDropBuild s;
     types := types s; versions := versions s;
     validatingVersions := validatingVersions s; builds := builds s;
     validatingBuilds := validatingBuilds s;
     versionsCache := versionsCache s; buildsCache := x |}.

(** The state at mount: the three query parameters as read from the
    address (a shareable link may carry any of them), no data yet, the
    keyed requests under way, nothing cached. *)
Definition mount (snapshots : maybe bool) (t v : maybe string) : App :=
  {| includeSnapshots := snapshots; type := t; version := v;
     build := None; isDragging := false; isJarDropLoading := false;
     jarDropBuild := None; types := None; versions := None;
     validatingVersions := true; builds := None; validatingBuilds := true;
     versionsCache := []; buildsCache := [] |}.

(** A page opened without query parameters. *)
Definition initial : App := mount undefined undefined undefined.

(** ** The fetchers handed to [useSWR]

    A fetcher either calls the catalog or resolves to [undefined] without
    a request. *)

Inductive Fetch : Type :=
| NoRequest
| GetVersions (typeId : string)
| GetBuilds (typeId versionId : string).

(** [() => type ? apiGetVersions(type) : undefined] *)
Definition versionsFetcher (s : App) : Fetch :=
  match type s with
| val t => if truthyString (val t) then GetVersions t else NoRequest
| _ => NoRequest
  end.

(** [() => type && version ? apiGetBuilds(type, version) : undefined] *)
Definition buildsFetcher (s : App) : Fetch :=
  match type s, version s with
| val t, val v =>
      if truthyString (val t) && truthyString (val v)
      then GetBuilds t v else NoRequest
| _, _ => NoRequest
  end.

(** ** Effects *)

(** [useEffect(() => { if (types && !type) setType(types[0].identifier) }, [types])] *)
Definition typesEffect (s : App) : completion App :=
  match types s with
| Some ts =>
      if negb (truthyString (type s)) then
        match index ts 0 with
        | Some t0 => Normal (setType (val (MinecraftType.identifier t0)) s)
        | None => Throw TypeError
        end
      else Normal s
| None => Normal s
  end.

(** The version auto-select effect, lines 55-61. *)
Definition versionsEffect (s : App) : completion App :=
  match versions s with
| Some vs =>
      match find (fun v => Version.derivedId v === version s) vs with
      | Some _ => Normal s
      | None =>
          let index := findIndex (fun v => Version.isRelease v || Version.untagged v) vs in
          match JS.index vs index with
          | Some v => Normal (setVersion (Version.derivedId v) s)
          | None => Throw TypeError
          end
      end
| None => Normal s
  end.

(** ** Selection handlers *)

(** [onClick={() => setType(t.identifier)}] *)
Definition onClickType (t : MinecraftType.t) (s : App) : App :=
  setType (val (MinecraftType.identifier t)) s.

(** [onClick={() => setVersion(v.latest.versionId ?? v.latest.projectVersionId)}] *)
Definition onClickVersion (v : Version.t) (s : App) : App :=
  setVersion (Version.derivedId v) s.

(** [onClick={() => setBuild(b)}] *)
Definition onClickBuild (b : PartialMinecraftBuild) (s : App) : App :=
  setBuild (Some b) s.

(** [onOpenChange={(open) => setBuild(open ? build : undefined)}] *)
Definition onBuildOpenChange (open : bool) (s : App) : App :=
  setBuild (if open then build s else None) s.

(** [onClick={() => setIncludeSnapshots(!includeSnapshots)}] *)
Definition onClickIncludeSnapshots (s : App) : App :=
  setIncludeSnapshots (val (negb (truthyBool (includeSnapshots s)))) s.

(** ** The rendered version list, lines 282-305 *)

Definition versionShown (s : App) (v : Version.t) : bool :=
  Version.untagged v
|| (Version.derivedId v === version s)
|| Version.isRelease v
|| (Version.isSnapshot v && truthyBool (includeSnapshots s)).

(** [None] stands for the skeleton placeholders. *)
Definition renderedVersions (s : App) : option (list Version.t) :=
  match versions s, types s with
| Some vs, Some _ =>
      if negb (validatingVersions s) then Some (filter (versionShown s) vs)
      else None
| _, _ => None
  end.

(** [!validatingBuilds && builds && versions && types], lines 317-335 *)
Definition renderedBuilds (s : App) : option (list PartialMinecraftBuild) :=
  match builds s, versions s, types s with
  | Some bs, Some _, Some _ =>
      if negb (validatingBuilds s) then Some bs else None
  | _, _, _ => None
  end.

(** ** The page as a machine

    The catalog service answers the keyed requests; the user clicks the
    buttons a render shows.  A request's data is what [useSWR] hands to the
    render.  When the request's key changes, the data of a key the cache
    holds is handed over in that very render (with [revalidateIfStale]
    off no request is made), so that the effects see it at once; for a
    key not seen before there is no data until its fetcher resolves, and
    the resolved data enters the cache. *)

Record Catalog : Type := {
  catTypes : list MinecraftType.t;
  catVersions : string -> list Version.t;
  catBuilds : string -> string -> list PartialMinecraftBuild
}.

Inductive Event : Type :=
| TypesResolved
| VersionsResolved
| BuildsResolved
| ClickType (i : nat)
| ClickVersion (i : nat)
| ClickBuild (i : nat)
| BuildOpenChange (open : bool)
| ClickIncludeSnapshots.

Definition bind {A B} (m : completion A) (f : A -> completion B) : completion B :=
  match m with
  | Normal a => f a
  | Throw e => Throw e
  end.

Definition cachedVersions (t : string) (s : App) : bool :=
  existsb (String.eqb t) (versionsCache s).

Definition cachedBuilds (t v : string) (s : App) : bool :=
  existsb (fun k => String.eqb t (fst k) && String.eqb v (snd k)) (buildsCache s).

(** The data of key [['versions', type]] in the first render with that
    key. *)
Definition deliverVersions (c : Catalog) (s : App) : App :=
  match versionsFetcher s with
  | GetVersions t =>
      if cachedVersions t s then setVersions (Some (catVersions c t)) false s
      else setVersions None true s
  | _ => setVersions None true s
  end.

(** The data of key [['builds', type, version]] in the first render with
    that key. *)
Definition deliverBuilds (c : Catalog) (s : App) : App :=
  match buildsFetcher s with
  | GetBuilds t v =>
      if cachedBuilds t v s then setBuilds (Some (catBuilds c t v)) false s
      else setBuilds None true s
  | _ => setBuilds None true s
  end.

(** The builds key after [version] may have changed, [type] being the
    same as before the event. *)
Definition rekeyBuilds (c : Catalog) (old s : App) : App :=
  if version s === version old then s else deliverBuilds c s.

(** The render that follows an event, compared with the state before it.
    A changed [type] changes both keys: the versions handed over are new
    to the version effect, which runs on them, and the builds key is
    taken once the effect has settled [version]. *)
Definition rekey (c : Catalog) (old s : App) : completion App :=
  if type s === type old then Normal (rekeyBuilds c old s)
  else bind (versionsEffect (deliverVersions c s))
            (fun s' => Normal (deliverBuilds c s')).

Definition step (c : Catalog) (e : Event) (s : App) : completion App :=
  match e with
  | TypesResolved =>
      bind (typesEffect (setTypes (Some (catTypes c)) s)) (rekey c s)
  | VersionsResolved =>
      let s1 := match versionsFetcher s with
                | GetVersions t =>
                    setVersionsCache (t :: versionsCache s)
                      (setVersions (Some (catVersions c t)) false s)
                | _ => setVersions None false s
                end in
      bind (versionsEffect s1) (rekey c s)
  | BuildsResolved =>
      match buildsFetcher s with
      | GetBuilds t v =>
          Normal (setBuildsCache ((t, v) :: buildsCache s)
                    (setBuilds (Some (catBuilds c t v)) false s))
      | _ => Normal (setBuilds None false s)
      end
  | ClickType i =>
      match types s with
      | Some ts =>
          match nth_error ts i with
          | Some t =>
              if val (MinecraftType.identifier t) === type s then Normal s
              else rekey c s (onClickType t s)
          | None => Normal s
          end
      | None => Normal s
      end
  | ClickVersion i =>
      match renderedVersions s with
      | Some vs =>
          match nth_error vs i with
          | Some v =>
              if Version.derivedId v === version s then Normal s
              else bind (versionsEffect (onClickVersion v s)) (rekey c s)
          | None => Normal s
          end
      | None => Normal s
      end
  | ClickBuild i =>
      match renderedBuilds s with
      | Some bs =>
          match nth_error bs i with
          | Some b =>
              match build s with
              | Some b' => if Build.id b =? Build.id b' then Normal s
                           else Normal (onClickBuild b s)
              | None => Normal (onClickBuild b s)
              end
          | None => Normal s
          end
      | None => Normal s
      end
  | BuildOpenChange open => Normal (onBuildOpenChange open s)
  | ClickIncludeSnapshots =>
      match renderedVersions s, versions s with
      | Some _, Some vs =>
          if existsb Version.isSnapshot vs
          then Normal (onClickIncludeSnapshots s) else Normal s
      | _, _ => Normal s
      end
  end.

Fixpoint run (c : Catalog) (es : list Event) (s : App) : completion App :=
  match es with
  | [] => Normal s
  | e :: r => bind (step c e s) (run c r)
  end.


(** ** SHA-256

    [crypto.subtle.digest('SHA-256', bytes)] is the platform's primitive;
    it is modelled by the algorithm of FIPS 180-4 on 32-bit words held in
    [Z], every addition reduced modulo [2^32]. *)

Module SHA256.

Definition mask32 : Z := 0xffffffff.

Definition add32 (x y : Z) : Z := Z.land (x + y) mask32.

Definition rotr (n x : Z) : Z :=
  Z.lor (Z.shiftr x n) (Z.land (Z.shiftl x (32 - n)) mask32).

Definition not32 (x : Z) : Z := Z.lxor x mask32.

Definition Ch (x y z : Z) : Z :=
  Z.lxor (Z.land x y) (Z.land (not32 x) z).

Definition Maj (x y z : Z) : Z :=
  Z.lxor (Z.lxor (Z.land x y) (Z.land x z)) (Z.land y z).

Definition Sigma0 (x : Z) : Z :=
  Z.lxor (Z.lxor (rotr 2 x) (rotr 13 x)) (rotr 22 x).

Definition Sigma1 (x : Z) : Z :=
  Z.lxor (Z.lxor (rotr 6 x) (rotr 11 x)) (rotr 25 x).

Definition sigma0 (x : Z) : Z :=
  Z.lxor (Z.lxor (rotr 7 x) (rotr 18 x)) (Z.shiftr x 3).

Definition sigma1 (x : Z) : Z :=
  Z.lxor (Z.lxor (rotr 17 x) (rotr 19 x)) (Z.shiftr x 10).

(** The round constants and the initial hash value are defined by FIPS
    180-4 from the first primes: the first thirty-two bits of the
    fractional part of a prime's cube root, respectively square root.
    [rootFrom k] builds the largest [r] with [r ^ k <= n] bit by bit. *)
Fixpoint rootFrom (k : Z) (bits : nat) (n r : Z) : Z :=
  match bits with
  | O => r
  | S b =>
      let r' := r + 2 ^ Z.of_nat b in
      if r' ^ k <=? n then rootFrom k b n r' else rootFrom k b n r
  end.

Definition fractionalRoot (k p : Z) : Z :=
  Z.land (rootFrom k 40 (p * 2 ^ (32 * k)) 0) mask32.

Definition primes : list Z :=
  [ 2; 3; 5; 7; 11; 13; 17; 19; 23; 29; 31; 37; 41; 43; 47; 53;
    59; 61; 67; 71; 73; 79; 83; 89; 97; 101; 103; 107; 109; 113; 127; 131;
    137; 139; 149; 151; 157; 163; 167; 173; 179; 181; 191; 193; 197; 199;
    211; 223; 227; 229; 233; 239; 241; 251; 257; 263; 269; 271; 277; 281;
    283; 293; 307; 311 ].

Definition K : list Z :=
  Eval vm_compute in map (fractionalRoot 3) primes.

(** The eight working variables, also the running hash value. *)
Record Regs : Type := {
  ra : Z; rb : Z; rc : Z; rd : Z; re : Z; rf : Z; rg : Z; rh : Z
}.

Definition H0 : Regs :=
  Eval vm_compute in
    {| ra := fractionalRoot 2 2; rb := fractionalRoot 2 3;
       rc := fractionalRoot 2 5; rd := fractionalRoot 2 7;
       re := fractionalRoot 2 11; rf := fractionalRoot 2 13;
       rg := fractionalRoot 2 17; rh := fractionalRoot 2 19 |}.

(** Big-endian bytes of a value, [n] of them. *)
Fixpoint bigEndian (n : nat) (x : Z) : list Z :=
  match n with
  | O => []
  | S m => Z.land (Z.shiftr x (8 * Z.of_nat m)) 0xff :: bigEndian m x
  end.

(** The message, a [1] bit, zeros up to 56 modulo 64, the bit length. *)
Definition pad (msg : list Z) : list Z :=
  let len := Z.of_nat (List.length msg) in
  (msg ++ [0x80] ++ repeat 0 (Z.to_nat ((55 - len) mod 64))
       ++ bigEndian 8 (8 * len))%list.

Fixpoint chunks {A} (fuel n : nat) (l : list A) : list (list A) :=
  match fuel, l with
  | O, _ => []
  | _, [] => []
  | S f, _ => firstn n l :: chunks f n (skipn n l)
  end.

Definition wordOfBytes (bs : list Z) : Z :=
  fold_left (fun acc b => Z.lor (Z.shiftl acc 8) b) bs 0.

Definition wordsOfBlock (block : list Z) : list Z :=
  map wordOfBytes (chunks 16 4 block).

(** The message schedule: sixteen words of the block, then forty-eight
    derived ones. *)
Fixpoint extend (n : nat) (w : list Z) : list Z :=
  match n with
  | O => w
  | S m =>
      let t := List.length w in
      let at_ k := nth (t - k) w 0 in
      extend m (w ++ [add32 (add32 (add32 (sigma1 (at_ 2%nat)) (at_ 7%nat))
                                   (sigma0 (at_ 15%nat)))
                            (at_ 16%nat)])%list
  end.

Definition schedule (block : list Z) : list Z :=
  extend 48 (wordsOfBlock block).

Definition round (r : Regs) (kw : Z * Z) : Regs :=
  let t1 := add32 (add32 (add32 (add32 (rh r) (Sigma1 (re r)))
                                (Ch (re r) (rf r) (rg r)))
                         (fst kw))
                  (snd kw) in
  let t2 := add32 (Sigma0 (ra r)) (Maj (ra r) (rb r) (rc r)) in
  {| ra := add32 t1 t2; rb := ra r; rc := rb r; rd := rc r;
     re := add32 (rd r) t1; rf := re r; rg := rf r; rh := rg r |}.

Definition compress (h : Regs) (block : list Z) : Regs :=
  let r := fold_left round (combine K (schedule block)) h in
  {| ra := add32 (ra h) (ra r); rb := add32 (rb h) (rb r);
     rc := add32 (rc h) (rc r); rd := add32 (rd h) (rd r);
     re := add32 (re h) (re r); rf := add32 (rf h) (rf r);
     rg := add32 (rg h) (rg r); rh := add32 (rh h) (rh r) |}.

Definition bytesOfRegs (r : Regs) : list Z :=
  (bigEndian 4 (ra r) ++ bigEndian 4 (rb r) ++ bigEndian 4 (rc r)
   ++ bigEndian 4 (rd r) ++ bigEndian 4 (re r) ++ bigEndian 4 (rf r)
   ++ bigEndian 4 (rg r) ++ bigEndian 4 (rh r))%list.

(** The digest of a byte sequence, as the thirty-two numbers of
    [Array.from(new Uint8Array(hash))]. *)
Definition digest (msg : list Byte.byte) : list Z :=
  let bytes := map (fun b => Z.of_N (Byte.to_N b)) msg in
  let padded := pad bytes in
  bytesOfRegs (fold_left compress (chunks (List.length padded) 64 padded) H0).

End SHA256.

(** ** Hexadecimal rendering, line 93 *)

Definition hexDigits : string := "0123456789abcdef".

Definition hexDigit (d : Z) : ascii :=
  match String.get (Z.to_nat d) hexDigits with
  | Some c => c
  | None => "0"%char
  end.

Fixpoint toString16From (fuel : nat) (n : Z) (acc : string) : string :=
  match fuel with
  | O => acc
  | S f =>
      let acc' := String (hexDigit (n mod 16)) acc in
      if n / 16 =? 0 then acc' else toString16From f (n / 16) acc'
  end.

(** [n.toString(16)] for a non-negative integer. *)
Definition toString16 (n : Z) : string :=
  toString16From (S (Z.to_nat (Z.log2 n))) n "".

Fixpoint repeatChar (c : ascii) (n : nat) : string :=
  match n with
  | O => ""
  | S m => String c (repeatChar c m)
  end.

(** [s.padStart(targetLength, c)] for a one-character filler. *)
Definition padStart (targetLength : nat) (c : ascii) (s : string) : string :=
  repeatChar c (targetLength - String.length s) ++ s.

(** [hashArray.map((b) => b.toString(16).padStart(2, '0')).join('')] *)
Definition hexOfBytes (hashArray : list Z) : string :=
  String.concat "" (map (fun b => padStart 2 "0"%char (toString16 b)) hashArray).

(** Lines 91-93: the file's bytes to [hashHex]. *)
Definition hashHex (fileBytes : list Byte.byte) : string :=
  hexOfBytes (SHA256.digest fileBytes).

(** One byte as two hexadecimal digits, the high one first. *)
Definition twoDigits (b : Z) : string :=
  String (hexDigit (b / 16)) (String (hexDigit (b mod 16)) EmptyString).

(** Reading a digest back: two lowercase digits per byte, in order. *)
Fixpoint hexValueIn (digits : string) (c : ascii) (i : Z) : option Z :=
  match digits with
  | EmptyString => None
  | String d r => if Ascii.eqb c d then Some i else hexValueIn r c (i + 1)
  end.

Definition hexValue (c : ascii) : option Z := hexValueIn hexDigits c 0.

Fixpoint bytesOfHex (s : string) : option (list Z) :=
  match s with
  | EmptyString => Some []
  | String hi (String lo r) =>
      match hexValue hi, hexValue lo, bytesOfHex r with
      | Some a, Some b, Some bs => Some (16 * a + b :: bs)
      | _, _, _ => None
      end
  | String _ EmptyString => None
  end.

(** ** Jar identification, lines 63-118 *)

(** What [await apiGetBuild(hashHex)] does: it resolves with a build, or
    the request is rejected, by the service for an unknown hash or by the
    network. *)
Inductive LookupOutcome : Type :=
| Resolved (b : PartialMinecraftBuild)
| RejectedNotFound
| RejectedNetwork.

Definition Remote : Type := string -> LookupOutcome.

(** Work started by a drop that has not called back yet. *)
Inductive Task : Type :=
| Reading (file : list Byte.byte)
| LookingUp (hash : string).

Record Page : Type := {
  app : App;
  pending : list Task
}.

(** [dragenter] and [dragover] *)
Definition onDragEnter (s : App) : App := setIsDragging true s.
Definition onDragOver (s : App) : App := setIsDragging true s.

(** [dragleave] *)
Definition onDragLeave (s : App) : App := setIsDragging false s.

(** [drop], lines 79-105; [dataTransfer] is [None] for an event without
    one, else the list of dropped files. *)
Definition onDrop (dataTransfer : option (list (list Byte.byte))) (p : Page) : Page :=
  let s := setIsJarDropLoading true (setIsDragging false (app p)) in
  let file := match dataTransfer with
              | Some files => index files 0
              | None => None
              end in
  match file with
  | None => {| app := s; pending := pending p |}
  | Some f => {| app := s; pending := (pending p ++ [Reading f])%list |}
  end.

(** [reader.onload] up to the lookup request, lines 90-96. *)
Definition onLoad (file : list Byte.byte) (s : App) : App * Task :=
  (setIsJarDropLoading true s, LookingUp (hashHex file)).

(** The [try]/[catch] around the lookup, lines 95-101. *)
Definition onLookup (r : LookupOutcome) (s : App) : App :=
  match r with
  | Resolved b => setIsJarDropLoading false (setJarDropBuild (Some b) s)
  | RejectedNotFound | RejectedNetwork => setIsJarDropLoading false s
  end.

(** [onOpenChange] of the identification drawer, lines 110-118. *)
Definition onJarOpenChange (open : bool) (s : App) : App :=
  if isJarDropLoading s then s
  else
    let s1 := setIsDragging open s in
    if negb open then setJarDropBuild None s1 else s1.

(** [open] of that drawer, line 110. *)
Definition jarDrawerOpen (s : App) : bool :=
  isDragging s || isJarDropLoading s
  || match jarDropBuild s with Some _ => true | None => false end.

Inductive DropEvent : Type :=
| DragEnter
| DragOver
| DragLeave
| Drop (dataTransfer : option (list (list Byte.byte)))
| Complete (i : nat)
| JarOpenChange (open : bool).

Fixpoint removeNth {A} (i : nat) (l : list A) : list A :=
  match i, l with
  | _, [] => []
  | O, _ :: r => r
  | S j, x :: r => x :: removeNth j r
  end.

Fixpoint replaceNth {A} (i : nat) (y : A) (l : list A) : list A :=
  match i, l with
  | _, [] => []
  | O, _ :: r => y :: r
  | S j, x :: r => x :: replaceNth j y r
  end.

(** One callback.  [Complete i] lets the [i]-th piece of pending work
    call back: a finished read runs [reader.onload] and leaves its lookup
    pending, a finished lookup runs the [try]/[catch]. *)
Definition dropStep (remote : Remote) (e : DropEvent) (p : Page) : Page :=
  match e with
  | DragEnter => {| app := onDragEnter (app p); pending := pending p |}
  | DragOver => {| app := onDragOver (app p); pending := pending p |}
  | DragLeave => {| app := onDragLeave (app p); pending := pending p |}
  | Drop dt => onDrop dt p
  | Complete i =>
      match nth_error (pending p) i with
      | Some (Reading f) =>
          let '(s, t) := onLoad f (app p) in
          {| app := s; pending := replaceNth i t (pending p) |}
      | Some (LookingUp h) =>
          {| app := onLookup (remote h) (app p);
             pending := removeNth i (pending p) |}
      | None => p
      end
  | JarOpenChange open =>
      {| app := onJarOpenChange open (app p); pending := pending p |}
  end.

Definition dropRun (remote : Remote) (es : list DropEvent) (p : Page) : Page :=
  fold_left (fun q e => dropStep remote e q) es p.

(** The flow at rest: nothing dragged, nothing hashing, nothing held. *)
Definition isIdle (s : App) : bool :=
  negb (isDragging s) && negb (isJarDropLoading s)
  && match jarDropBuild s with Some _ => false | None => true end.

Definition idlePage : Page := {| app := initial; pending := [] |}.

(** A drop that carries at least one file. *)
Definition carriesFile (e : DropEvent) : bool :=
  match e with
  | Drop (Some (_ :: _)) => true
  | _ => false
  end.

(** ** The identification drawer's content, lines 120-148 *)

Inductive JarView : Type :=
| DropPrompt
| JarResult (b : PartialMinecraftBuild)
| JarSkeleton.

(** [!isJarDropLoading && !jarDropBuild ? ... : jarDropBuild ? ... : ...] *)
Definition jarDrawerView (s : App) : JarView :=
  match jarDropBuild s with
  | None => if negb (isJarDropLoading s) then DropPrompt else JarSkeleton
  | Some b => JarResult b
  end.

(** ** The build drawer's content, lines 152-210 *)

(** [s.split(sep)] for a one-character separator. *)
Fixpoint split (sep : ascii) (s : string) : list string :=
  match s with
  | EmptyString => [EmptyString]
  | String c r =>
      if Ascii.eqb c sep then EmptyString :: split sep r
      else match split sep r with
           | x :: xs => String c x :: xs
           | [] => [String c EmptyString]
           end
  end.

(** [a.pop()]'s value: the last element, [undefined] on an empty array. *)
Fixpoint pop {A} (l : list A) : option A :=
  match l with
  | [] => None
  | [x] => Some x
  | _ :: r => pop r
  end.

(** [s.slice(0, -n)] *)
Definition sliceEnd (n : nat) (s : string) : string :=
  substring 0 (String.length s - n) s.

(** [zipUrl.split('/').pop()?.slice(0, -4)], line 166. *)
Definition startJarName (zipUrl : string) : option string :=
  option_map (sliceEnd 4) (pop (split "/"%char zipUrl)).

(** Truthiness of an optional URL. *)
Definition present (u : maybe string) : bool := truthyString u.

(** The paragraphs of the installation text. *)
Inductive Instruction : Type :=
| DeleteLibraries
| ExtractZip
| NameJar (name : string)
| StartJar (name : option string)
| PlaceJar
| RenameJar (name : string).

(** Lines 159-175. *)
Definition instructions (b : PartialMinecraftBuild) : list Instruction :=
  ((match Build.zipUrl b with
    | val z =>
        if present (val z) then
          [DeleteLibraries; ExtractZip]
          ++ (if present (Build.jarUrl b)
              then [NameJar match Build.jarLocation b with
                            | val l => l
                            | _ => "server.jar"
                            end]
              else [])
          ++ [StartJar (startJarName z)]
        else []
    | _ => []
    end)
   ++ (if present (Build.jarUrl b) && negb (present (Build.zipUrl b))
       then [PlaceJar; RenameJar "server.jar"; StartJar (Some "server.jar")]
       else []))%list.

(** The download buttons, lines 184-205: address and size in bytes. *)
Definition sizeOr0 (x : maybe Z) : Z :=
  match x with
  | val n => n
  | _ => 0
  end.

Definition downloads (b : PartialMinecraftBuild) : list (string * Z) :=
  ((match Build.jarUrl b with
    | val u => if present (val u) then [(u, sizeOr0 (Build.jarSize b))] else []
    | _ => []
    end)
   ++ (match Build.zipUrl b with
       | val u => if present (val u) then [(u, sizeOr0 (Build.zipSize b))] else []
       | _ => []
       end))%list.

(** ** The lookup request, lines 352-358 *)

(** [`https://mc.rjns.dev/api/v1/build/${build}`] *)
Definition buildUrl (build : string) : string :=
  "https://mc.rjns.dev/api/v1/build/" ++ build.

(** ** Properties of a state, for the statements below *)

(** Every character of a string passes a test. *)
Fixpoint allChars (p : ascii -> bool) (s : string) : bool :=
  match s with
  | EmptyString => true
  | String c r => p c && allChars p r
  end.

(** One of [0-9a-f]. *)
Definition isHexDigit (c : ascii) : bool :=
  match hexValue c with
  | Some _ => true
  | None => false
  end.

Definition notSlash (c : ascii) : bool := negb (Ascii.eqb c "/"%char).

(** The lookup an event completes, with its outcome. *)
Definition completedBy (remote : Remote) (e : DropEvent) (p : Page)
    : list LookupOutcome :=
  match e with
  | Complete i =>
      match nth_error (pending p) i with
      | Some (LookingUp h) => [remote h]
      | _ => []
      end
  | _ => []
  end.

(** The outcomes of the lookups that complete along a run, in the order
    in which they complete. *)
Fixpoint lookupsCompleted (remote : Remote) (es : list DropEvent) (p : Page)
    : list LookupOutcome :=
  match es with
  | [] => []
  | e :: r =>
      (completedBy remote e p
       ++ lookupsCompleted remote r (dropStep remote e p))%list
  end.

(** The build of the last outcome that resolved, or the one given. *)
Definition heldAfter (outcomes : list LookupOutcome)
    (held : option PartialMinecraftBuild) : option PartialMinecraftBuild :=
  fold_left (fun acc o => match o with
                          | Resolved b => Some b
                          | _ => acc
                          end) outcomes held.

(** A dismissal of the identification drawer. *)
Definition isDismissal (e : DropEvent) : bool :=
  match e with
  | JarOpenChange false => true
  | _ => false
  end.

(** The callbacks a piece of pending work still has to make. *)
Definition callbacksLeft (t : Task) : nat :=
  match t with
  | Reading _ => 2
  | LookingUp _ => 1
  end.

Definition workLeft (q : list Task) : nat :=
  fold_right (fun t n => (callbacksLeft t + n)%nat) 0%nat q.

(** The loaded build list is that of the selected type and version. *)
Definition buildsOfKey (c : Catalog) (s : App) : Prop :=
  forall bs, builds s = Some bs ->
    exists t v, type s = val t /\ version s = val v /\ bs = catBuilds c t v.

(** No entry of the list is a release or untagged. *)
Definition noRelease (vs : list Version.t) : bool :=
  forallb (fun v => negb (Version.isRelease v || Version.untagged v)) vs.

(** The filter as the specification words it for an unset flag: untagged,
    release, or the selected version. *)
Definition shownWithoutSnapshots (selected : maybe string) (v : Version.t) : bool :=
  match Version.type v with
  | undefined | null | val RELEASE => true
  | val SNAPSHOT => Version.derivedId v === selected
  end.



(** ** Sample data *)

Definition sampleType (id : string) : MinecraftType.t :=
  {| MinecraftType.identifier := id; MinecraftType.name := id;
     MinecraftType.icon := ""; MinecraftType.categories := [];
     MinecraftType.compatibility := []; MinecraftType.experimental := false;
     MinecraftType.deprecated := false; MinecraftType.builds := 1 |}.

Definition sampleVersion (id : string) (tag : maybe VersionType) : Version.t :=
  {| Version.latest := {| Version.versionId := val id;
                          Version.projectVersionId := null |};
     Version.type := tag; Version.builds := 1 |}.

Definition sampleBuild (n : Z) (ty v : string) : PartialMinecraftBuild :=
  {| Build.id := n; Build.type := ty; Build.versionId := val v;
     Build.projectVersionId := null; Build.buildNumber := 1;
     Build.jarSize := val 1024; Build.zipSize := null;
     Build.jarUrl := val "https://example.org/server.jar"; Build.zipUrl := null;
     Build.jarLocation := null; Build.created := "2024-06-13" |}.

(** Two types; [vanilla] has a release and a snapshot, [paper] one
    release of another version. *)
Definition sampleCatalog : Catalog :=
  {| catTypes := [sampleType "vanilla"; sampleType "paper"];
     catVersions := fun t =>
       if String.eqb t "vanilla"
       then [sampleVersion "1.21" (val RELEASE);
             sampleVersion "1.21-pre1" (val SNAPSHOT)]
       else if String.eqb t "paper"
       then [sampleVersion "1.20.4" (val RELEASE)]
       else [];
     catBuilds := fun t v =>
       if String.eqb t "vanilla" && String.eqb v "1.21"
       then [sampleBuild 1 "vanilla" "1.21"]
       else [] |}.

(** A type whose only version is a snapshot. *)
Definition snapshotOnly : App :=
  setVersions (Some [sampleVersion "24w14a" (val SNAPSHOT)]) false
    (mount undefined (val "vanilla") undefined).

Definition stateAfter (c : Catalog) (es : list Event) (s : App) : App :=
  match run c es s with
  | Normal s' => s'
  | Throw _ => s
  end.

(** The sample page once vanilla's versions are there. *)
Definition vanillaLoaded : App :=
  Eval vm_compute in
    stateAfter sampleCatalog [TypesResolved; VersionsResolved] initial.

(** The same with the request settled, so that the list is rendered. *)
Definition vanillaShown : App :=
  setVersions (Some (catVersions sampleCatalog "vanilla")) false vanillaLoaded.

(** The sample page once vanilla's builds are there too. *)
Definition vanillaBuilds : App :=
  Eval vm_compute in
    stateAfter sampleCatalog [TypesResolved; VersionsResolved; BuildsResolved]
      initial.


(** A catalog whose one type has only a snapshot. *)
Definition snapshotCatalog : Catalog :=
  {| catTypes := [sampleType "snapshots"];
     catVersions := fun _ => [sampleVersion "24w14a" (val SNAPSHOT)];
     catBuilds := fun _ _ => [] |}.

(** Two types: [edge] with one snapshot and nothing else, [vanilla] with
    a release. *)
Definition edgeCatalog : Catalog :=
  {| catTypes := [sampleType "edge"; sampleType "vanilla"];
     catVersions := fun t =>
       if String.eqb t "edge" then [sampleVersion "24w14a" (val SNAPSHOT)]
       else [sampleVersion "1.21" (val RELEASE)];
     catBuilds := fun _ _ => [] |}.

(** Opened from a link to [edge]'s snapshot, its list loaded, then
    [vanilla] clicked and its list loaded: [edge]'s list is in the cache
    and the selected version is [vanilla]'s. *)
Definition backToEdge : App :=
  Eval vm_compute in
    stateAfter edgeCatalog
      [TypesResolved; VersionsResolved; ClickType 1; VersionsResolved]
      (mount undefined (val "edge") (val "24w14a")).

(** Three jars; the service knows the first two. *)
Definition jarA : list Byte.byte := [Byte.x01].
Definition jarB : list Byte.byte := [Byte.x02].
Definition jarC : list Byte.byte := [Byte.x03].

Definition buildA : PartialMinecraftBuild := sampleBuild 1 "vanilla" "1.21".
Definition buildB : PartialMinecraftBuild := sampleBuild 2 "paper" "1.20.4".

Definition sampleRemote : Remote :=
  fun h =>
    if String.eqb h (hashHex jarA) then Resolved buildA
    else if String.eqb h (hashHex jarB) then Resolved buildB
    else RejectedNotFound.

(** * Properties *)

(** ** JavaScript values *)

Lemma strictEq_eq (a b : maybe string) : a === b = true <-> a = b.
Proof.
  destruct a, b; simpl; split; intro H; try discriminate; try reflexivity.
  - apply String.eqb_eq in H. now subst.
  - injection H as ->. apply String.eqb_refl.
Qed.

Lemma strictEq_refl (a : maybe string) : a === a = true.
Proof. now apply strictEq_eq. Qed.

Lemma findIndexFrom_none {A} (p : A -> bool) (l : list A) (i : Z) :
  forallb (fun x => negb (p x)) l = true -> findIndexFrom p l i = -1.
Proof.
  revert i. induction l as [|x r IH]; intros i H; simpl in *.
  - reflexivity.
  - apply andb_prop in H as [Hx Hr].
    destruct (p x); [discriminate|]. now apply IH.
Qed.

Lemma findIndexFrom_first {A} (p : A -> bool) (pre : list A) (x : A)
    (post : list A) (i : Z) :
  forallb (fun y => negb (p y)) pre = true -> p x = true ->
  findIndexFrom p (pre ++ x :: post)%list i = i + Z.of_nat (List.length pre).
Proof.
  revert i. induction pre as [|y r IH]; intros i Hpre Hx; simpl in *.
  - rewrite Hx. lia.
  - apply andb_prop in Hpre as [Hy Hr].
    destruct (p y); [discriminate|]. rewrite IH by assumption. lia.
Qed.

Lemma index_app_here {A} (pre : list A) (x : A) (post : list A) :
  index (pre ++ x :: post)%list (Z.of_nat (List.length pre)) = Some x.
Proof.
  unfold index.
  destruct (Z.ltb_spec (Z.of_nat (List.length pre)) 0) as [H|H]; [lia|].
  rewrite Nat2Z.id, nth_error_app2 by lia.
  now rewrite Nat.sub_diag.
Qed.

Lemma index_In {A} (l : list A) (i : Z) (x : A) :
  index l i = Some x -> In x l.
Proof.
  unfold index. destruct (i <? 0); [discriminate|]. apply nth_error_In.
Qed.

(** ** Keys *)

Lemma deliverVersions_fields (c : Catalog) (s : App) :
  type (deliverVersions c s) = type s
  /\ version (deliverVersions c s) = version s
  /\ build (deliverVersions c s) = build s
  /\ builds (deliverVersions c s) = builds s
  /\ versionsCache (deliverVersions c s) = versionsCache s
  /\ buildsCache (deliverVersions c s) = buildsCache s.
Proof.
  unfold deliverVersions. destruct (versionsFetcher s) as [|t|t v];
    [|destruct (cachedVersions t s)|]; simpl; auto 6.
Qed.

Lemma deliverBuilds_fields (c : Catalog) (s : App) :
  type (deliverBuilds c s) = type s
  /\ version (deliverBuilds c s) = version s
  /\ build (deliverBuilds c s) = build s
  /\ versions (deliverBuilds c s) = versions s
  /\ versionsCache (deliverBuilds c s) = versionsCache s
  /\ buildsCache (deliverBuilds c s) = buildsCache s.
Proof.
  unfold deliverBuilds. destruct (buildsFetcher s) as [|t|t v];
    [| |destruct (cachedBuilds t v s)]; simpl; auto 6.
Qed.

Lemma rekeyBuilds_fields (c : Catalog) (old s : App) :
  type (rekeyBuilds c old s) = type s
  /\ version (rekeyBuilds c old s) = version s
  /\ build (rekeyBuilds c old s) = build s
  /\ versions (rekeyBuilds c old s) = versions s
  /\ versionsCache (rekeyBuilds c old s) = versionsCache s
  /\ buildsCache (rekeyBuilds c old s) = buildsCache s.
Proof.
  unfold rekeyBuilds. destruct (version s === version old); [auto 6|].
  apply deliverBuilds_fields.
Qed.

Lemma rekey_same_type (c : Catalog) (old s : App) :
  type s = type old -> rekey c old s = Normal (rekeyBuilds c old s).
Proof. intros H. unfold rekey. now rewrite H, strictEq_refl. Qed.

Lemma rekey_unchanged (c : Catalog) (old s : App) :
  type s = type old -> version s = version old -> rekey c old s = Normal s.
Proof.
  intros Ht Hv. rewrite rekey_same_type by assumption.
  unfold rekeyBuilds. now rewrite Hv, strictEq_refl.
Qed.

Lemma versionsEffect_none (s : App) :
  versions s = None -> versionsEffect s = Normal s.
Proof. intros H. unfold versionsEffect. now rewrite H. Qed.

(** ** Auto-selection *)

(** When some entry is a release or untagged, the effect picks the first
    such entry. *)
Lemma versionsEffect_first_release (s : App) (pre : list Version.t)
    (v : Version.t) (post : list Version.t) :
  versions s = Some (pre ++ v :: post)%list ->
  find (fun x => Version.derivedId x === version s) (pre ++ v :: post)%list = None ->
  forallb (fun x => negb (Version.isRelease x || Version.untagged x)) pre = true ->
  Version.isRelease v || Version.untagged v = true ->
  versionsEffect s = Normal (setVersion (Version.derivedId v) s).
Proof.
  intros Hvs Hfind Hpre Hv. unfold versionsEffect. rewrite Hvs, Hfind.
  unfold findIndex. rewrite findIndexFrom_first by assumption.
  simpl. now rewrite index_app_here.
Qed.

(** C1: on a version list without any release or untagged entry (an
    all-snapshot list, or an empty one) that does not hold the selected
    version, the auto-select effect reads [versions[-1].latest] and throws
    a [TypeError]; it does not fall back to the first entry. *)
Theorem versionsEffect_no_release_throws (s : App) (vs : list Version.t) :
  versions s = Some vs ->
  find (fun v => Version.derivedId v === version s) vs = None ->
  forallb (fun v => negb (Version.isRelease v || Version.untagged v)) vs = true ->
  versionsEffect s = Throw TypeError.
Proof.
  intros Hvs Hfind Hnone. unfold versionsEffect. rewrite Hvs, Hfind.
  unfold findIndex. rewrite findIndexFrom_none by assumption.
  reflexivity.
Qed.

Lemma versionsEffect_no_release_throws_witness :
  versionsEffect snapshotOnly = Throw TypeError.
Proof.
  apply (versionsEffect_no_release_throws snapshotOnly
           [sampleVersion "24w14a" (val SNAPSHOT)]); reflexivity.
Defined.

(** C8 (as amended): when the type list arrives non-empty and no type is
    selected, that is [type] is [undefined], [null] or the empty string,
    the effect selects the first type of the list and touches nothing
    else; it changes the type in no other case, so a non-empty type,
    clicked or restored from the address, is never overridden. *)
Theorem typesEffect_selects_first (s : App) :
  (forall t0 ts, types s = Some (t0 :: ts) ->
     type s = undefined \/ type s = null \/ type s = val "" ->
     exists s', typesEffect s = Normal s'
                /\ type s' = val (MinecraftType.identifier t0)
                /\ version s' = version s /\ build s' = build s
                /\ types s' = types s /\ versions s' = versions s
                /\ builds s' = builds s
                /\ includeSnapshots s' = includeSnapshots s)
  /\ (forall t, type s = val t -> t <> "" -> typesEffect s = Normal s)
  /\ (forall s', typesEffect s = Normal s' -> type s' <> type s ->
        (type s = undefined \/ type s = null \/ type s = val "")
        /\ exists t0 ts, types s = Some (t0 :: ts)
                         /\ type s' = val (MinecraftType.identifier t0)).
Proof.
  split; [|split].
  - intros t0 ts Hts Hty. unfold typesEffect. rewrite Hts.
    assert (Hf : truthyString (type s) = false)
      by (destruct Hty as [-> | [-> | ->]]; reflexivity).
    rewrite Hf. simpl. eexists. split; [reflexivity|]. simpl. auto 8.
  - intros t Hty Hne. unfold typesEffect. rewrite Hty.
    apply String.eqb_neq in Hne. simpl. rewrite Hne. now destruct (types s).
  - intros s' He Hne. unfold typesEffect in He.
    destruct (types s) as [[|t0 ts]|]; try (injection He as <-; now elim Hne).
    + destruct (negb _); [discriminate|]. injection He as <-. now elim Hne.
    + destruct (truthyString (type s)) eqn:Hf; simpl in He;
        injection He as <-; [now elim Hne|]. split; [|simpl; eauto].
      destruct (type s) as [| |t]; auto. simpl in Hf.
      destruct (String.eqb_spec t ""); [subst; auto|discriminate].
Qed.

Lemma typesEffect_selects_first_witness :
  exists s', typesEffect (setTypes (Some (catTypes sampleCatalog)) initial)
             = Normal s'
             /\ type s' = val "vanilla".
Proof.
  destruct (proj1 (typesEffect_selects_first
                     (setTypes (Some (catTypes sampleCatalog)) initial))
              (sampleType "vanilla") [sampleType "paper"] eq_refl
              (or_introl eq_refl))
    as (s' & He & Ht & _).
  exists s'. split; [exact He | exact Ht].
Defined.

(** C8, as stated, fails: a link with an empty [type] parameter restores
    the empty string, and when the types arrive that restored value is
    replaced by the first type. *)
Lemma empty_link_type_overridden :
  type (mount undefined (val "") undefined) = val ""
  /\ exists s', run sampleCatalog [TypesResolved]
                  (mount undefined (val "") undefined) = Normal s'
                /\ type s' = val "vanilla"
                /\ type s' <> type (mount undefined (val "") undefined).
Proof.
  split; [reflexivity|]. eexists. split; [reflexivity|].
  split; [reflexivity|discriminate].
Qed.

(** ** The rendered version list *)

Lemma versionShown_without_snapshots (s : App) (v : Version.t) :
  truthyBool (includeSnapshots s) = false ->
  versionShown s v = shownWithoutSnapshots (version s) v.
Proof.
  intros Hflag.
  unfold versionShown, shownWithoutSnapshots, Version.untagged,
    Version.isRelease, Version.isSnapshot.
  rewrite Hflag.
  destruct (Version.type v) as [| |[|]]; simpl;
    now rewrite ?orb_true_r, ?orb_false_r.
Qed.

(** C6: with [includeSnapshots] unset or false, the rendered list is the
    version list in its order, restricted to the entries whose tag is
    absent or [RELEASE] or whose derived identifier is the selected
    version. *)
Theorem snapshot_filter (s : App) (vs : list Version.t)
    (ts : list MinecraftType.t) :
  truthyBool (includeSnapshots s) = false ->
  versions s = Some vs -> types s = Some ts -> validatingVersions s = false ->
  exists shown,
    renderedVersions s = Some shown
    /\ shown = filter (shownWithoutSnapshots (version s)) vs
    /\ forall v,
         In v shown <->
         In v vs /\ (Version.type v = undefined \/ Version.type v = null
                     \/ Version.type v = val RELEASE
                     \/ Version.derivedId v = version s).
Proof.
  intros Hflag Hvs Hts Hval.
  exists (filter (shownWithoutSnapshots (version s)) vs).
  split; [|split; [reflexivity|]].
  - unfold renderedVersions. rewrite Hvs, Hts, Hval. simpl. f_equal.
    apply filter_ext. intro v. now apply versionShown_without_snapshots.
  - intro v. rewrite filter_In. unfold shownWithoutSnapshots.
    split; intros [Hin H]; (split; [assumption|]).
    + destruct (Version.type v) as [| |[|]]; auto.
      apply strictEq_eq in H. auto.
    + destruct H as [H|[H|[H|H]]]; try (now rewrite H).
      destruct (Version.type v) as [| |[|]]; auto.
      now apply strictEq_eq.
Qed.

Lemma snapshot_filter_witness :
  renderedVersions
    (setVersion (val "1.21-pre1")
       (setTypes (Some (catTypes sampleCatalog))
          (setVersions (Some (catVersions sampleCatalog "vanilla")) false
             (mount (val false) (val "vanilla") undefined))))
  = Some [sampleVersion "1.21" (val RELEASE);
          sampleVersion "1.21-pre1" (val SNAPSHOT)].
Proof.
  destruct (snapshot_filter
              (setVersion (val "1.21-pre1")
                 (setTypes (Some (catTypes sampleCatalog))
                    (setVersions (Some (catVersions sampleCatalog "vanilla")) false
                       (mount (val false) (val "vanilla") undefined))))
              (catVersions sampleCatalog "vanilla") (catTypes sampleCatalog)
              eq_refl eq_refl eq_refl eq_refl) as [shown [Hr [Hs _]]].
  rewrite Hr, Hs. reflexivity.
Defined.

(** ** Requests *)

(** C9: while [type] is unset the versions fetcher makes no request, and
    while [type] or [version] is unset the builds fetcher makes none; the
    request then settles with no data and is not left validating. *)
Theorem unresolved_key_no_request (c : Catalog) (s : App) :
  (truthyString (type s) = false ->
     versionsFetcher s = NoRequest
     /\ exists s', step c VersionsResolved s = Normal s'
                   /\ versions s' = None /\ validatingVersions s' = false)
  /\ (truthyString (type s) = false \/ truthyString (version s) = false ->
        buildsFetcher s = NoRequest
        /\ exists s', step c BuildsResolved s = Normal s'
                      /\ builds s' = None /\ validatingBuilds s' = false).
Proof.
  split.
  - intros Hty.
    assert (Hf : versionsFetcher s = NoRequest).
    { unfold versionsFetcher. destruct (type s); auto. now rewrite Hty. }
    split; [exact Hf|].
    cbv beta iota zeta delta [step]. rewrite Hf.
    rewrite versionsEffect_none by reflexivity. cbn [bind].
    rewrite rekey_unchanged by reflexivity.
    eexists. split; [reflexivity|]. auto.
  - intros H.
    assert (Hf : buildsFetcher s = NoRequest).
    { unfold buildsFetcher. destruct (type s) as [| |t]; auto.
      destruct (version s) as [| |v]; auto.
      destruct H as [H|H]; rewrite H; simpl; auto. now rewrite andb_false_r. }
    split; [exact Hf|].
    unfold step. rewrite Hf. eexists. split; [reflexivity|]. simpl. auto.
Qed.

Lemma unresolved_key_no_request_witness :
  versionsFetcher initial = NoRequest
  /\ buildsFetcher (mount undefined (val "vanilla") undefined) = NoRequest.
Proof.
  split.
  - apply (proj1 (unresolved_key_no_request sampleCatalog initial)). reflexivity.
  - apply (proj2 (unresolved_key_no_request sampleCatalog
                    (mount undefined (val "vanilla") undefined))).
    right. reflexivity.
Defined.

(** ** Selection consistency *)

Lemma versionsEffect_fields (s s' : App) :
  versionsEffect s = Normal s' ->
  versions s' = versions s /\ type s' = type s /\ build s' = build s.
Proof.
  unfold versionsEffect. destruct (versions s) as [vs|] eqn:Hvs.
  - destruct (find _ vs).
    + intros [= <-]. auto.
    + destruct (index vs _); [|discriminate]. intros [= <-]. simpl. auto.
  - intros [= <-]. auto.
Qed.



Lemma buildsFetcher_key (s : App) (t v : string) :
  buildsFetcher s = GetBuilds t v -> type s = val t /\ version s = val v.
Proof.
  unfold buildsFetcher. destruct (type s) as [| |t']; try discriminate.
  destruct (version s) as [| |v']; try discriminate.
  destruct (_ && _); [|discriminate]. now intros [= -> ->].
Qed.





Lemma typesEffect_fields (s s' : App) :
  typesEffect s = Normal s' ->
  versions s' = versions s /\ version s' = version s /\ build s' = build s
  /\ (type s' = type s \/ truthyString (type s) = false).
Proof.
  unfold typesEffect. destruct (types s) as [ts|] eqn:Hts.
  - destruct (truthyString (type s)) eqn:Hty; simpl.
    + intros [= <-]. auto.
    + destruct (index ts 0); [|discriminate]. intros [= <-]. simpl. auto.
  - intros [= <-]. auto.
Qed.







(** ** Jar identification *)

Lemma page_eta (p : Page) : {| app := app p; pending := pending p |} = p.
Proof. now destruct p. Qed.

Lemma onJarOpenChange_loading (open : bool) (s : App) :
  isJarDropLoading s = true -> onJarOpenChange open s = s.
Proof. intros H. unfold onJarOpenChange. now rewrite H. Qed.

(** While loading with nothing pending, no event but a drop that carries
    a file changes that. *)
Lemma stuck_step (remote : Remote) (e : DropEvent) (p : Page) :
  carriesFile e = false ->
  isJarDropLoading (app p) = true /\ pending p = [] ->
  isJarDropLoading (app (dropStep remote e p)) = true
  /\ pending (dropStep remote e p) = [].
Proof.
  intros He [Hl Hp]. destruct e as [| | |dt|i|open]; simpl; auto.
  - destruct dt as [[|f r]|]; [| discriminate He |]; simpl; auto.
  - rewrite Hp. destruct i; simpl; auto.
  - now rewrite onJarOpenChange_loading.
Qed.

(** C3: a drop without a file, on a page with no identification under
    way, raises the loading flag and starts nothing that would lower it:
    whatever follows, short of a drop that carries a file, the page stays
    loading with its drawer open and never returns to rest. *)
Theorem empty_drop_stays_loading (remote : Remote)
    (dt : option (list (list Byte.byte))) (p : Page) (es : list DropEvent) :
  pending p = [] -> dt = None \/ dt = Some [] ->
  forallb (fun e => negb (carriesFile e)) es = true ->
  isJarDropLoading (app (dropRun remote es (onDrop dt p))) = true
  /\ isIdle (app (dropRun remote es (onDrop dt p))) = false
  /\ jarDrawerOpen (app (dropRun remote es (onDrop dt p))) = true
  /\ pending (dropRun remote es (onDrop dt p)) = [].
Proof.
  intros Hp Hdt Hes.
  assert (H0 : isJarDropLoading (app (onDrop dt p)) = true
               /\ pending (onDrop dt p) = []).
  { destruct Hdt as [-> | ->]; simpl; auto. }
  assert (H : isJarDropLoading (app (dropRun remote es (onDrop dt p))) = true
              /\ pending (dropRun remote es (onDrop dt p)) = []).
  { revert H0. generalize (onDrop dt p) as q. unfold dropRun.
    induction es as [|e r IH]; intros q Hq; simpl in *; [exact Hq|].
    apply andb_prop in Hes as [He Hr]. apply IH; [exact Hr|].
    apply stuck_step; [|exact Hq]. now destruct (carriesFile e). }
  destruct H as [Hl Hq]. repeat split; try assumption.
  - unfold isIdle. rewrite Hl. now rewrite andb_false_r.
  - unfold jarDrawerOpen. rewrite Hl. now rewrite orb_true_r.
Qed.

Lemma empty_drop_stays_loading_witness :
  isJarDropLoading
    (app (dropRun (fun _ => RejectedNotFound)
            [DragLeave; JarOpenChange false; Complete 0]
            (onDrop (Some []) idlePage))) = true
  /\ isIdle
       (app (dropRun (fun _ => RejectedNotFound)
               [DragLeave; JarOpenChange false; Complete 0]
               (onDrop (Some []) idlePage))) = false
  /\ jarDrawerOpen
       (app (dropRun (fun _ => RejectedNotFound)
               [DragLeave; JarOpenChange false; Complete 0]
               (onDrop (Some []) idlePage))) = true
  /\ pending
       (dropRun (fun _ => RejectedNotFound)
          [DragLeave; JarOpenChange false; Complete 0]
          (onDrop (Some []) idlePage)) = [].
Proof.
  apply (empty_drop_stays_loading (fun _ => RejectedNotFound) (Some [])
           idlePage [DragLeave; JarOpenChange false; Complete 0]);
    [reflexivity | right; reflexivity | reflexivity].
Defined.

(** C10: while the loading flag is set, the drawer's [onOpenChange]
    returns at once, for a dismissal as for an opening; the state after it
    is the state before it, the drag flag, the loading flag and the held
    result included. *)
Theorem dismissal_ignored_while_loading (remote : Remote) (open : bool)
    (p : Page) :
  isJarDropLoading (app p) = true ->
  onJarOpenChange open (app p) = app p
  /\ dropStep remote (JarOpenChange open) p = p.
Proof.
  intros H. split.
  - now apply onJarOpenChange_loading.
  - simpl. rewrite onJarOpenChange_loading by assumption. apply page_eta.
Qed.

Lemma dismissal_ignored_while_loading_witness :
  dropStep (fun _ => RejectedNotFound) (JarOpenChange false)
    (onDrop (Some [[Byte.x01]]) idlePage)
  = onDrop (Some [[Byte.x01]]) idlePage.
Proof.
  apply (proj2 (dismissal_ignored_while_loading (fun _ => RejectedNotFound)
                  false (onDrop (Some [[Byte.x01]]) idlePage) eq_refl)).
Defined.

(** C7 (as amended): when a pending lookup is rejected, whichever the
    reason, its completion lowers the loading flag, takes the lookup off
    the pending work and changes nothing else, so both kinds of failure
    end in the same state and none throws; the build held is the one held
    just before the completion, so none is held afterwards exactly when
    none was held at that moment, and the flow is then at rest unless a
    drag is under way. *)
Theorem failed_lookup_collapse (remote : Remote) (p : Page) (i : nat)
    (h : string) :
  nth_error (pending p) i = Some (LookingUp h) ->
  remote h = RejectedNotFound \/ remote h = RejectedNetwork ->
  app (dropStep remote (Complete i) p) = setIsJarDropLoading false (app p)
  /\ pending (dropStep remote (Complete i) p) = removeNth i (pending p)
  /\ onLookup RejectedNotFound (app p) = onLookup RejectedNetwork (app p)
  /\ isJarDropLoading (app (dropStep remote (Complete i) p)) = false
  /\ jarDropBuild (app (dropStep remote (Complete i) p)) = jarDropBuild (app p)
  /\ (jarDropBuild (app p) = None -> isDragging (app p) = false ->
      isIdle (app (dropStep remote (Complete i) p)) = true).
Proof.
  intros Hn Hr. cbn [dropStep]. rewrite Hn. cbn [app pending].
  assert (He : onLookup (remote h) (app p) = setIsJarDropLoading false (app p))
    by (destruct Hr as [-> | ->]; reflexivity).
  rewrite He. repeat split.
  intros Hb Hd. unfold isIdle. simpl. now rewrite Hb, Hd.
Qed.

Lemma failed_lookup_collapse_witness :
  isIdle
    (app (dropStep sampleRemote (Complete 0)
            (dropRun sampleRemote [Drop (Some [jarC]); Complete 0] idlePage)))
  = true.
Proof.
  destruct (failed_lookup_collapse sampleRemote
              (dropRun sampleRemote [Drop (Some [jarC]); Complete 0] idlePage)
              0 (hashHex jarC) eq_refl)
    as (_ & _ & _ & _ & _ & H).
  - left. vm_compute. reflexivity.
  - apply H; reflexivity.
Defined.

(** C7, as stated, fails: a jar the service knows is dropped and
    identified, then a jar it does not know; the second lookup is
    rejected and the flow leaves loading with the first jar's build still
    held. *)
Lemma failed_lookup_keeps_held_build :
  sampleRemote (hashHex jarC) = RejectedNotFound
  /\ pending (dropRun sampleRemote
                [Drop (Some [jarA]); Complete 0; Complete 0;
                 Drop (Some [jarC]); Complete 0]
                idlePage) = [LookingUp (hashHex jarC)]
  /\ isJarDropLoading
       (app (dropRun sampleRemote
               [Drop (Some [jarA]); Complete 0; Complete 0;
                Drop (Some [jarC]); Complete 0; Complete 0]
               idlePage)) = false
  /\ jarDropBuild
       (app (dropRun sampleRemote
               [Drop (Some [jarA]); Complete 0; Complete 0;
                Drop (Some [jarC]); Complete 0; Complete 0]
               idlePage)) = Some buildA.
Proof. vm_compute. repeat split. Qed.

Lemma heldAfter_app (a b : list LookupOutcome)
    (held : option PartialMinecraftBuild) :
  heldAfter (a ++ b)%list held = heldAfter b (heldAfter a held).
Proof. unfold heldAfter. apply fold_left_app. Qed.

Lemma step_held (remote : Remote) (e : DropEvent) (p : Page) :
  isDismissal e = false ->
  jarDropBuild (app (dropStep remote e p))
  = heldAfter (completedBy remote e p) (jarDropBuild (app p)).
Proof.
  intros He. destruct e as [| | |dt|i|open]; try reflexivity.
  - unfold onDrop, dropStep. destruct dt as [[|f r]|]; reflexivity.
  - cbn [dropStep completedBy].
    destruct (nth_error (pending p) i) as [[f|h]|]; try reflexivity.
    cbn [app heldAfter fold_left]. now destruct (remote h).
  - destruct open; [|discriminate]. cbn [dropStep app completedBy].
    unfold onJarOpenChange. now destruct (isJarDropLoading (app p)).
Qed.

(** C4 (as amended): a second drop while the first is in progress cancels
    nothing.  A drop only adds to the pending work; a lookup that
    completes writes its outcome to the state whatever was dropped
    since; and over any sequence of drags, drops and completions without
    a dismissal, the build held in the end is that of the lookup that
    resolved last in the order of completion, or the build held before if
    none resolved. *)
Theorem last_completion_wins (remote : Remote) (es : list DropEvent)
    (p : Page) :
  forallb (fun e => negb (isDismissal e)) es = true ->
  jarDropBuild (app (dropRun remote es p))
  = heldAfter (lookupsCompleted remote es p) (jarDropBuild (app p))
  /\ (forall dt q, exists added, pending (onDrop dt q) = (pending q ++ added)%list)
  /\ (forall i h q, nth_error (pending q) i = Some (LookingUp h) ->
        app (dropStep remote (Complete i) q) = onLookup (remote h) (app q)).
Proof.
  intros Hes. split; [|split].
  - revert p. induction es as [|e r IH]; intros p; [reflexivity|].
    cbn [forallb] in Hes. apply andb_prop in Hes as [He Hr].
    cbn [lookupsCompleted]. rewrite heldAfter_app.
    rewrite <- step_held by (now destruct (isDismissal e)).
    change (dropRun remote (e :: r) p)
      with (dropRun remote r (dropStep remote e p)).
    now apply IH.
  - intros dt q. unfold onDrop. destruct dt as [[|f r]|]; cbn [index pending].
    + exists []. now rewrite app_nil_r.
    + eexists. reflexivity.
    + exists []. now rewrite app_nil_r.
  - intros i h q Hn. cbn [dropStep]. now rewrite Hn.
Qed.

Lemma last_completion_wins_witness :
  jarDropBuild
    (app (dropRun sampleRemote
            [Drop (Some [jarA]); Drop (Some [jarC]); Complete 0; Complete 1;
             Complete 0; Complete 0] idlePage))
  = heldAfter [Resolved buildA; RejectedNotFound] None.
Proof.
  apply (last_completion_wins sampleRemote
           [Drop (Some [jarA]); Drop (Some [jarC]); Complete 0; Complete 1;
            Complete 0; Complete 0] idlePage).
  reflexivity.
Defined.

(** C4, as stated, fails: jar A is dropped, then jar B before A has
    resolved; B's lookup completes first, A's after it, and the build held
    in the end is A's. *)
Lemma first_drop_overwrites_second :
  sampleRemote (hashHex jarB) = Resolved buildB
  /\ buildA <> buildB
  /\ jarDropBuild
       (app (dropRun sampleRemote
               [Drop (Some [jarA]); Drop (Some [jarB]); Complete 0; Complete 1;
                Complete 1; Complete 0] idlePage)) = Some buildA
  /\ pending
       (dropRun sampleRemote
          [Drop (Some [jarA]); Drop (Some [jarB]); Complete 0; Complete 1;
           Complete 1; Complete 0] idlePage) = [].
Proof.
  split; [vm_compute; reflexivity|].
  split; [discriminate|].
  split; vm_compute; reflexivity.
Qed.

(** ** The digest *)

Lemma byte_cases (P : Z -> bool) :
  forallb P (map Z.of_nat (seq 0 256)) = true ->
  forall b, 0 <= b < 256 -> P b = true.
Proof.
  intros H b Hb. rewrite forallb_forall in H. apply H.
  apply in_map_iff. exists (Z.to_nat b). split; [lia|].
  apply in_seq. lia.
Qed.

Lemma padStart_byte (b : Z) :
  0 <= b < 256 -> padStart 2 "0"%char (toString16 b) = twoDigits b.
Proof.
  intros Hb. apply String.eqb_eq.
  apply (byte_cases
           (fun x => String.eqb (padStart 2 "0"%char (toString16 x)) (twoDigits x)));
    [vm_compute; reflexivity | exact Hb].
Qed.

Lemma hexValue_twoDigits (b : Z) :
  0 <= b < 256 ->
  hexValue (hexDigit (b / 16)) = Some (b / 16)
  /\ hexValue (hexDigit (b mod 16)) = Some (b mod 16).
Proof.
  intros Hb.
  assert (H : (match hexValue (hexDigit (b / 16)),
                     hexValue (hexDigit (b mod 16)) with
               | Some hi, Some lo => (hi =? b / 16) && (lo =? b mod 16)
               | _, _ => false
               end) = true).
  { apply (byte_cases
             (fun x => match hexValue (hexDigit (x / 16)),
                             hexValue (hexDigit (x mod 16)) with
                       | Some hi, Some lo => (hi =? x / 16) && (lo =? x mod 16)
                       | _, _ => false
                       end));
      [vm_compute; reflexivity | exact Hb]. }
  destruct (hexValue (hexDigit (b / 16))) as [hi|]; [|discriminate].
  destruct (hexValue (hexDigit (b mod 16))) as [lo|]; [|discriminate].
  apply andb_prop in H as [H1 H2].
  apply Z.eqb_eq in H1, H2. now subst.
Qed.

Lemma concat_cons (x : string) (xs : list string) :
  String.concat "" (x :: xs) = (x ++ String.concat "" xs)%string.
Proof.
  destruct xs as [|y ys]; simpl.
  - induction x as [|c x IH]; simpl; [reflexivity|now rewrite <- IH].
  - reflexivity.
Qed.

Lemma hexOfBytes_cons (b : Z) (l : list Z) :
  0 <= b < 256 -> hexOfBytes (b :: l) = (twoDigits b ++ hexOfBytes l)%string.
Proof.
  intros Hb. unfold hexOfBytes. cbn [map]. rewrite concat_cons.
  now rewrite padStart_byte.
Qed.

Lemma hexOfBytes_twoDigits (l : list Z) :
  Forall (fun b => 0 <= b < 256) l ->
  hexOfBytes l = String.concat "" (map twoDigits l).
Proof.
  induction 1 as [|b l Hb Hl IH].
  - reflexivity.
  - rewrite hexOfBytes_cons by assumption. cbn [map].
    now rewrite concat_cons, IH.
Qed.

Lemma hexOfBytes_length (l : list Z) :
  Forall (fun b => 0 <= b < 256) l ->
  String.length (hexOfBytes l) = (2 * List.length l)%nat.
Proof.
  induction 1 as [|b l Hb Hl IH].
  - reflexivity.
  - rewrite hexOfBytes_cons by assumption. unfold twoDigits.
    cbn [append String.length List.length]. rewrite IH. lia.
Qed.

Lemma bytesOfHex_hexOfBytes (l : list Z) :
  Forall (fun b => 0 <= b < 256) l -> bytesOfHex (hexOfBytes l) = Some l.
Proof.
  induction 1 as [|b l Hb Hl IH].
  - reflexivity.
  - rewrite hexOfBytes_cons by assumption. unfold twoDigits.
    cbn [append bytesOfHex].
    destruct (hexValue_twoDigits b Hb) as [-> ->]. rewrite IH.
    do 2 f_equal. symmetry. apply Z.div_mod. lia.
Qed.

Lemma bigEndian_length (n : nat) (x : Z) : List.length (SHA256.bigEndian n x) = n.
Proof. induction n as [|n IH]; simpl; [reflexivity|now rewrite IH]. Qed.

Lemma bigEndian_bytes (n : nat) (x : Z) :
  Forall (fun b => 0 <= b < 256) (SHA256.bigEndian n x).
Proof.
  induction n as [|n IH]; cbn [SHA256.bigEndian]; constructor; [|exact IH].
  change 0xff with (Z.ones 8). rewrite Z.land_ones by lia.
  apply Z.mod_pos_bound. lia.
Qed.

Lemma digest_length (bs : list Byte.byte) :
  List.length (SHA256.digest bs) = 32%nat.
Proof.
  unfold SHA256.digest, SHA256.bytesOfRegs.
  now rewrite !length_app, !bigEndian_length.
Qed.

Lemma digest_bytes (bs : list Byte.byte) :
  Forall (fun b => 0 <= b < 256) (SHA256.digest bs).
Proof.
  unfold SHA256.digest, SHA256.bytesOfRegs.
  repeat (apply Forall_app; split); apply bigEndian_bytes.
Qed.

(** The model of the primitive reproduces the standard's sample digests,
    a one-block and a two-block message. *)
Lemma digest_known_vectors :
  hashHex (list_byte_of_string "abc")
  = "ba7816bf8f01cfea414140de5dae2223b00361a396177a9cb410ff61f20015ad"
  /\ hashHex (list_byte_of_string
                "abcdbcdecdefdefgefghfghighijhijkijkljklmklmnlmnomnopnopq")
     = "248d6a61d20638b8e5c026930c3e6039a33ce45964ff2167f6ecedd419db06c1".
Proof. split; vm_compute; reflexivity. Qed.

(** C5: the digest string is a function of the file's bytes alone; it is
    sixty-four characters, two lowercase hexadecimal digits for each of the
    thirty-two digest bytes in their order, so that it reads back to the
    digest; and the empty file's is the known SHA-256 value. *)
Theorem hashHex_is_sha256_hex :
  (forall bs1 bs2, bs1 = bs2 -> hashHex bs1 = hashHex bs2)
  /\ (forall bs,
        List.length (SHA256.digest bs) = 32%nat
        /\ hashHex bs = String.concat "" (map twoDigits (SHA256.digest bs))
        /\ String.length (hashHex bs) = 64%nat
        /\ bytesOfHex (hashHex bs) = Some (SHA256.digest bs))
  /\ hashHex []
     = "e3b0c44298fc1c149afbf4c8996fb92427ae41e4649b934ca495991b7852b855".
Proof.
  split; [|split].
  - intros bs1 bs2 ->. reflexivity.
  - intros bs. pose proof (digest_bytes bs) as Hd.
    pose proof (digest_length bs) as Hl. unfold hashHex.
    split; [|split; [|split]].
    + exact Hl.
    + now apply hexOfBytes_twoDigits.
    + rewrite hexOfBytes_length by assumption. now rewrite Hl.
    + now apply bytesOfHex_hexOfBytes.
  - vm_compute. reflexivity.
Qed.

Lemma hashHex_is_sha256_hex_witness :
  hashHex (list_byte_of_string "abc") = hashHex (list_byte_of_string "abc")
  /\ String.length (hashHex (list_byte_of_string "abc")) = 64%nat.
Proof.
  destruct hashHex_is_sha256_hex as (Hdet & Hhex & _).
  split.
  - apply Hdet. reflexivity.
  - apply (Hhex (list_byte_of_string "abc")).
Defined.

(** * Further properties *)

(** ** The effects *)

Lemma find_listed (s : App) (vs : list Version.t) (v : Version.t) :
  In v vs -> Version.derivedId v = version s ->
  exists w, find (fun x => Version.derivedId x === version s) vs = Some w.
Proof.
  intros Hin Hid.
  destruct (find (fun x => Version.derivedId x === version s) vs) as [w|] eqn:Hf.
  - now exists w.
  - apply (find_none _ _ Hf) in Hin. rewrite Hid, strictEq_refl in Hin.
    discriminate.
Qed.

Lemma first_match_split {A} (p : A -> bool) (l : list A) :
  existsb p l = true ->
  exists pre x post, l = (pre ++ x :: post)%list
                     /\ forallb (fun y => negb (p y)) pre = true /\ p x = true.
Proof.
  induction l as [|a r IH]; simpl; [discriminate|].
  destruct (p a) eqn:Ha; simpl.
  - intros _. exists [], a, r. auto.
  - intros Hr. destruct (IH Hr) as (pre & x & post & -> & Hpre & Hx).
    exists (a :: pre), x, post. simpl. rewrite Ha. auto.
Qed.

Lemma forallb_negb_existsb {A} (p : A -> bool) (l : list A) :
  forallb (fun y => negb (p y)) l = negb (existsb p l).
Proof.
  induction l as [|a r IH]; simpl; [reflexivity|].
  rewrite IH. now destruct (p a).
Qed.

Lemma index_findIndex_none {A} (p : A -> bool) (l : list A) :
  index l (findIndex p l) = None -> forallb (fun y => negb (p y)) l = true.
Proof.
  intros H. rewrite forallb_negb_existsb.
  destruct (existsb p l) eqn:He; [|reflexivity].
  destruct (first_match_split p l He) as (pre & x & post & -> & Hpre & Hx).
  unfold findIndex in H. rewrite findIndexFrom_first in H by assumption.
  simpl in H. rewrite index_app_here in H. discriminate.
Qed.

Lemma versionsEffect_listed_normal (s : App) (vs : list Version.t)
    (v : Version.t) :
  versions s = Some vs -> In v vs -> Version.derivedId v = version s ->
  versionsEffect s = Normal s.
Proof.
  intros Hvs Hin Hid. unfold versionsEffect. rewrite Hvs.
  destruct (find_listed s vs v Hin Hid) as [w Hw]. now rewrite Hw.
Qed.

Lemma versionsEffect_throw_inv (s : App) (err : error) :
  versionsEffect s = Throw err ->
  exists vs, versions s = Some vs
             /\ find (fun v => Version.derivedId v === version s) vs = None
             /\ noRelease vs = true.
Proof.
  unfold versionsEffect. destruct (versions s) as [vs|]; [|discriminate].
  destruct (find _ vs) eqn:Hf; [discriminate|].
  destruct (index vs _) eqn:Hi; [discriminate|]. intros _.
  exists vs. split; [reflexivity|]. split; [exact Hf|].
  unfold noRelease. now apply index_findIndex_none.
Qed.

Lemma typesEffect_throw_inv (s : App) (err : error) :
  typesEffect s = Throw err ->
  types s = Some [] /\ truthyString (type s) = false.
Proof.
  unfold typesEffect. destruct (types s) as [[|t ts]|];
    destruct (truthyString (type s)); simpl; try discriminate; auto.
Qed.

(** X1: once the version effect has completed, running it again changes
    nothing: the selection it makes is one it accepts. *)
Theorem versionsEffect_settles (s s' : App) :
  versionsEffect s = Normal s' -> versionsEffect s' = Normal s'.
Proof.
  intros H. pose proof H as H0. unfold versionsEffect in H.
  destruct (versions s) as [vs|] eqn:Hvs.
  - destruct (find _ vs) as [w|] eqn:Hf.
    + injection H as <-. exact H0.
    + destruct (index vs _) as [v|] eqn:Hi; [|discriminate].
      injection H as <-. apply index_In in Hi.
      unfold versionsEffect. cbn [versions setVersion version].
      rewrite Hvs.
      destruct (find_listed (setVersion (Version.derivedId v) s) vs v Hi eq_refl)
        as [w Hw].
      cbn [version setVersion] in Hw. now rewrite Hw.
  - injection H as <-. exact H0.
Qed.

Lemma versionsEffect_settles_witness :
  versionsEffect vanillaLoaded = Normal vanillaLoaded.
Proof.
  apply (versionsEffect_settles (setVersion undefined vanillaLoaded)
           vanillaLoaded).
  reflexivity.
Defined.

(** X2: a selected version that is an entry of the arriving list is kept,
    whatever its tag and wherever it stands in the list. *)
Theorem versionsEffect_keeps_listed (s : App) (vs : list Version.t)
    (v : Version.t) :
  versions s = Some vs -> In v vs -> Version.derivedId v = version s ->
  versionsEffect s = Normal s.
Proof. apply versionsEffect_listed_normal. Qed.

Lemma versionsEffect_keeps_listed_witness :
  versionsEffect
    (setVersions (Some (catVersions sampleCatalog "vanilla")) false
       (mount undefined (val "vanilla") (val "1.21-pre1")))
  = Normal
      (setVersions (Some (catVersions sampleCatalog "vanilla")) false
         (mount undefined (val "vanilla") (val "1.21-pre1"))).
Proof.
  apply (versionsEffect_keeps_listed _ (catVersions sampleCatalog "vanilla")
           (sampleVersion "1.21-pre1" (val SNAPSHOT))).
  - reflexivity.
  - right. left. reflexivity.
  - reflexivity.
Defined.

(** X3: the version effect throws in one case only: a list has arrived, the
    selected version is not an entry of it, and no entry is a release or
    untagged. *)
Theorem versionsEffect_throws_iff (s : App) :
  versionsEffect s = Throw TypeError <->
  exists vs, versions s = Some vs
             /\ find (fun v => Version.derivedId v === version s) vs = None
             /\ noRelease vs = true.
Proof.
  split.
  - apply versionsEffect_throw_inv.
  - intros (vs & Hvs & Hf & Hn). unfold versionsEffect. rewrite Hvs, Hf.
    unfold findIndex. unfold noRelease in Hn.
    now rewrite findIndexFrom_none.
Qed.

(** X4: the type effect throws in one case only: the type list has arrived
    empty while no type is selected. *)
Theorem typesEffect_throws_iff (s : App) :
  typesEffect s = Throw TypeError <->
  types s = Some [] /\ truthyString (type s) = false.
Proof.
  unfold typesEffect. destruct (types s) as [[|t ts]|];
    destruct (truthyString (type s)); simpl; split;
    try discriminate; try (intros [H1 H2]; discriminate); auto.
Qed.

(** ** The page as a machine *)

Lemma rendered_entry (s : App) (shown : list Version.t) (i : nat)
    (v : Version.t) :
  renderedVersions s = Some shown -> nth_error shown i = Some v ->
  exists vs, versions s = Some vs /\ In v vs.
Proof.
  unfold renderedVersions. destruct (versions s) as [vs|]; [|discriminate].
  destruct (types s); [|discriminate].
  destruct (negb (validatingVersions s)); [|discriminate].
  intros [= <-] Hn. apply nth_error_In in Hn. apply filter_In in Hn as [Hin _].
  eauto.
Qed.

Lemma clicked_version_accepted (s : App) (shown : list Version.t) (i : nat)
    (v : Version.t) :
  renderedVersions s = Some shown -> nth_error shown i = Some v ->
  versionsEffect (onClickVersion v s) = Normal (onClickVersion v s).
Proof.
  intros Hr Hn. destruct (rendered_entry s shown i v Hr Hn) as (vs & Hvs & Hin).
  unfold versionsEffect. cbn [versions version onClickVersion setVersion].
  rewrite Hvs.
  destruct (find_listed (onClickVersion v s) vs v Hin eq_refl) as [w Hw].
  cbn [version onClickVersion setVersion] in Hw. now rewrite Hw.
Qed.

(** X5: a click on the [i]-th version button never throws; afterwards the
    selected version is that button's, and the type and the open build
    are as before. *)
Theorem click_version_selects (c : Catalog) (s : App)
    (shown : list Version.t) (i : nat) (v : Version.t) :
  renderedVersions s = Some shown -> nth_error shown i = Some v ->
  exists s', step c (ClickVersion i) s = Normal s'
             /\ version s' = Version.derivedId v
             /\ type s' = type s /\ build s' = build s.
Proof.
  intros Hr Hn. cbv beta iota zeta delta [step]. rewrite Hr, Hn.
  destruct (Version.derivedId v === version s) eqn:Hd.
  - apply strictEq_eq in Hd. exists s. auto.
  - rewrite (clicked_version_accepted s shown i v Hr Hn). cbn [bind].
    rewrite rekey_same_type by reflexivity.
    eexists. split; [reflexivity|].
    destruct (rekeyBuilds_fields c s (onClickVersion v s))
      as (Ht & Hv & Hb & _).
    rewrite Ht, Hv, Hb. simpl. auto.
Qed.

Lemma click_version_selects_witness :
  exists s', step sampleCatalog (ClickVersion 0)
               (setIncludeSnapshots (val true)
                  (setVersion (val "1.21-pre1")
                     (setVersions (Some (catVersions sampleCatalog "vanilla"))
                        false vanillaLoaded)))
             = Normal s'
             /\ version s' = val "1.21".
Proof.
  destruct (click_version_selects sampleCatalog
              (setIncludeSnapshots (val true)
                 (setVersion (val "1.21-pre1")
                    (setVersions (Some (catVersions sampleCatalog "vanilla"))
                       false vanillaLoaded)))
              (catVersions sampleCatalog "vanilla") 0
              (sampleVersion "1.21" (val RELEASE)) eq_refl eq_refl)
    as (s' & Hs & Hv & _).
  exists s'. split; [exact Hs | exact Hv].
Defined.

Lemma typesEffect_cache (s s' : App) :
  typesEffect s = Normal s' -> versionsCache s' = versionsCache s.
Proof.
  unfold typesEffect. destruct (types s) as [ts|].
  - destruct (negb _).
    + destruct (index ts 0); [|discriminate]. now intros [= <-].
    + now intros [= <-].
  - now intros [= <-].
Qed.

Lemma rekey_throw_inv (c : Catalog) (old s : App) (err : error) :
  rekey c old s = Throw err ->
  exists t, cachedVersions t s = true
            /\ noRelease (catVersions c t) = true
            /\ find (fun v => Version.derivedId v === version s)
                 (catVersions c t) = None.
Proof.
  unfold rekey. destruct (type s === type old); [discriminate|].
  destruct (versionsEffect _) eqn:He; [discriminate|]. intros _.
  apply versionsEffect_throw_inv in He as (vs & Hvs & Hf & Hn).
  destruct (deliverVersions_fields c s) as (_ & Hv & _). rewrite Hv in Hf.
  unfold deliverVersions in Hvs.
  destruct (versionsFetcher s) as [|t|t v]; try discriminate.
  destruct (cachedVersions t s) eqn:Hc; [|discriminate].
  injection Hvs as <-. eauto.
Qed.

(** X6: an event throws only when data is handed to an effect that cannot
    cope with it: the type list arriving empty with no type selected, or
    a version list without the selected version and without a release or
    untagged entry, either arriving from the service or handed over from
    the cache when the type changes (by a click on a type, or by the type
    auto-selection).  No click on a version, a build or the snapshot
    button and no drawer change throws. *)
Theorem step_throws_only_on_delivery (c : Catalog) (e : Event) (s : App)
    (err : error) :
  step c e s = Throw err ->
  (e = TypesResolved /\ catTypes c = [] /\ truthyString (type s) = false)
  \/ (exists t,
        noRelease (catVersions c t) = true
        /\ find (fun v => Version.derivedId v === version s)
             (catVersions c t) = None
        /\ ((e = VersionsResolved /\ versionsFetcher s = GetVersions t)
            \/ ((e = TypesResolved \/ exists i, e = ClickType i)
                /\ cachedVersions t s = true))).
Proof.
  intros H. destruct e; cbv beta iota zeta delta [step] in H.
  - destruct (typesEffect _) as [s1|] eqn:He.
    + right. cbn [bind] in H.
      apply rekey_throw_inv in H as (t & Hc & Hn & Hf).
      pose proof (typesEffect_fields _ _ He) as (_ & Hv & _).
      apply typesEffect_cache in He. cbn [version setTypes] in Hv.
      cbn [versionsCache setTypes] in He.
      unfold cachedVersions in Hc. rewrite He in Hc. rewrite Hv in Hf.
      exists t. split; [exact Hn|]. split; [exact Hf|]. right. auto.
    + left. apply typesEffect_throw_inv in He as [Ht Hty].
      simpl in Ht, Hty. injection Ht as Ht. auto.
  - right. destruct (versionsEffect _) as [s1|] eqn:He.
    + cbn [bind] in H. rewrite rekey_same_type in H; [discriminate|].
      apply versionsEffect_fields in He as (_ & Ht & _). rewrite Ht.
      now destruct (versionsFetcher s).
    + apply versionsEffect_throw_inv in He as (vs & Hvs & Hf & Hn).
      destruct (versionsFetcher s) as [|t|t v]; try discriminate.
      cbn [versions version setVersions setVersionsCache] in Hvs, Hf.
      injection Hvs as <-. exists t. auto.
  - destruct (buildsFetcher s); discriminate.
  - destruct (types s) as [ts|]; [|discriminate].
    destruct (nth_error ts i) as [t'|]; [|discriminate].
    destruct (_ === _); [discriminate|]. right.
    apply rekey_throw_inv in H as (t & Hc & Hn & Hf).
    exists t. split; [exact Hn|]. split; [exact Hf|]. right. eauto.
  - destruct (renderedVersions s) as [shown|] eqn:Hr; [|discriminate].
    destruct (nth_error shown i) as [v|] eqn:Hn; [|discriminate].
    destruct (_ === _); [discriminate|].
    rewrite (clicked_version_accepted s shown i v Hr Hn) in H.
    cbn [bind] in H. rewrite rekey_same_type in H by reflexivity.
    discriminate.
  - destruct (renderedBuilds s) as [bs|]; [|discriminate].
    destruct (nth_error bs i); [|discriminate].
    destruct (build s); [destruct (_ =? _)|]; discriminate.
  - discriminate.
  - destruct (renderedVersions s); [|discriminate].
    destruct (versions s) as [vs|]; [|discriminate].
    destruct (existsb _ vs); discriminate.
Qed.

Lemma step_throws_only_on_delivery_witness :
  (ClickType 0 = TypesResolved /\ catTypes edgeCatalog = []
   /\ truthyString (type backToEdge) = false)
  \/ (exists t,
        noRelease (catVersions edgeCatalog t) = true
        /\ find (fun v => Version.derivedId v === version backToEdge)
             (catVersions edgeCatalog t) = None
        /\ ((ClickType 0 = VersionsResolved
             /\ versionsFetcher backToEdge = GetVersions t)
            \/ ((ClickType 0 = TypesResolved \/ exists i, ClickType 0 = ClickType i)
                /\ cachedVersions t backToEdge = true))).
Proof.
  apply (step_throws_only_on_delivery edgeCatalog (ClickType 0) backToEdge
           TypeError).
  reflexivity.
Defined.

Lemma truthy_nonempty (t : string) : t <> "" -> truthyString (val t) = true.
Proof. intros H. simpl. apply String.eqb_neq in H. now rewrite H. Qed.

(** X7: a page opened without parameters: once the types and then the first
    type's versions have arrived, the first type is selected and, of its
    versions, the first that is a release or untagged. *)
Theorem initial_load_selects (c : Catalog) (t0 : MinecraftType.t)
    (ts : list MinecraftType.t) (pre : list Version.t) (v : Version.t)
    (post : list Version.t) :
  catTypes c = t0 :: ts -> MinecraftType.identifier t0 <> "" ->
  catVersions c (MinecraftType.identifier t0) = (pre ++ v :: post)%list ->
  noRelease pre = true -> Version.isRelease v || Version.untagged v = true ->
  find (fun x => Version.derivedId x === undefined) (pre ++ v :: post)%list = None ->
  exists s, run c [TypesResolved; VersionsResolved] initial = Normal s
            /\ type s = val (MinecraftType.identifier t0)
            /\ version s = Version.derivedId v
            /\ versions s = Some (pre ++ v :: post)%list.
Proof.
  intros Hts Hid Hvs Hpre Hv Hfind.
  pose proof (truthy_nonempty _ Hid) as Htr.
  set (id := MinecraftType.identifier t0) in *.
  set (sA := setBuilds None true
               (setVersions None true
                  (setType (val id) (setTypes (Some (t0 :: ts)) initial)))).
  assert (H1 : step c TypesResolved initial = Normal sA).
  { cbv beta iota zeta delta [step]. rewrite Hts.
    assert (He : typesEffect (setTypes (Some (t0 :: ts)) initial)
                 = Normal (setType (val id) (setTypes (Some (t0 :: ts)) initial)))
      by reflexivity.
    rewrite He. cbn [bind]. unfold rekey.
    cbn [type setType setTypes initial mount strictEq].
    unfold deliverVersions, versionsFetcher.
    cbn [type setType setTypes initial mount]. rewrite Htr.
    cbn [cachedVersions versionsCache setType setTypes initial mount existsb].
    rewrite versionsEffect_none by reflexivity. reflexivity. }
  assert (Hf : versionsFetcher sA = GetVersions id).
  { unfold versionsFetcher. cbn [type sA setBuilds setVersions setType].
    now rewrite Htr. }
  set (s1 := setVersionsCache (id :: versionsCache sA)
               (setVersions (Some (pre ++ v :: post)%list) false sA)).
  assert (H2 : step c VersionsResolved sA
               = Normal (rekeyBuilds c sA (setVersion (Version.derivedId v) s1))).
  { cbv beta iota zeta delta [step]. rewrite Hf, Hvs. fold s1.
    rewrite (versionsEffect_first_release s1 pre v post);
      try assumption; try reflexivity.
    cbn [bind]. now rewrite rekey_same_type. }
  cbn [run]. rewrite H1. cbn [bind]. rewrite H2. cbn [bind].
  eexists. split; [reflexivity|].
  destruct (rekeyBuilds_fields c sA (setVersion (Version.derivedId v) s1))
    as (Ht & Hver & _ & Hvss & _).
  rewrite Ht, Hver, Hvss. auto.
Qed.

Lemma initial_load_selects_witness :
  exists s, run sampleCatalog [TypesResolved; VersionsResolved] initial = Normal s
            /\ type s = val "vanilla" /\ version s = val "1.21".
Proof.
  destruct (initial_load_selects sampleCatalog (sampleType "vanilla")
              [sampleType "paper"] [] (sampleVersion "1.21" (val RELEASE))
              [sampleVersion "1.21-pre1" (val SNAPSHOT)])
    as (s & Hs & Ht & Hv & _); try reflexivity; try discriminate.
  exists s. auto.
Defined.

(** X8: a page opened from a link that names a type and one of that type's
    versions keeps both through the arrival of the types and of the
    versions, whatever the type list holds and whatever the version's
    tag. *)
Theorem link_selection_survives (c : Catalog) (snap : maybe bool)
    (t v : string) (x : Version.t) :
  t <> "" -> In x (catVersions c t) -> Version.derivedId x = val v ->
  exists s, run c [TypesResolved; VersionsResolved] (mount snap (val t) (val v))
            = Normal s
            /\ type s = val t /\ version s = val v
            /\ versions s = Some (catVersions c t).
Proof.
  intros Ht Hin Hid. pose proof (truthy_nonempty _ Ht) as Htr.
  set (m := mount snap (val t) (val v)).
  assert (H1 : step c TypesResolved m = Normal (setTypes (Some (catTypes c)) m)).
  { cbv beta iota zeta delta [step]. unfold typesEffect.
    cbn [types setTypes type m mount]. rewrite Htr. cbn [negb bind].
    now rewrite rekey_unchanged. }
  assert (H2 : step c VersionsResolved (setTypes (Some (catTypes c)) m)
               = Normal (setVersionsCache [t]
                           (setVersions (Some (catVersions c t)) false
                              (setTypes (Some (catTypes c)) m)))).
  { cbv beta iota zeta delta [step]. unfold versionsFetcher.
    cbn [type setTypes m mount]. rewrite Htr.
    rewrite (versionsEffect_listed_normal _ (catVersions c t) x);
      [|reflexivity|exact Hin|exact Hid].
    cbn [bind]. now rewrite rekey_unchanged. }
  cbn [run]. rewrite H1. cbn [bind]. rewrite H2. cbn [bind].
  eexists. split; [reflexivity|]. auto.
Qed.

Lemma link_selection_survives_witness :
  exists s, run sampleCatalog [TypesResolved; VersionsResolved]
              (mount undefined (val "vanilla") (val "1.21-pre1")) = Normal s
            /\ type s = val "vanilla" /\ version s = val "1.21-pre1".
Proof.
  destruct (link_selection_survives sampleCatalog undefined "vanilla"
              "1.21-pre1" (sampleVersion "1.21-pre1" (val SNAPSHOT)))
    as (s & Hs & Ht & Hv & _).
  - discriminate.
  - right. left. reflexivity.
  - reflexivity.
  - exists s. auto.
Defined.

Lemma versionsEffect_builds (s s' : App) :
  versionsEffect s = Normal s' -> builds s' = builds s.
Proof.
  unfold versionsEffect. destruct (versions s) as [vs|].
  - destruct (find _ vs).
    + now intros [= <-].
    + destruct (index vs _); [|discriminate]. now intros [= <-].
  - now intros [= <-].
Qed.

Lemma typesEffect_builds (s s' : App) :
  typesEffect s = Normal s' -> builds s' = builds s.
Proof.
  unfold typesEffect. destruct (types s) as [ts|].
  - destruct (negb _).
    + destruct (index ts 0); [|discriminate]. now intros [= <-].
    + now intros [= <-].
  - now intros [= <-].
Qed.

Lemma deliverBuilds_ofKey (c : Catalog) (s : App) :
  buildsOfKey c (deliverBuilds c s).
Proof.
  intros bs. destruct (deliverBuilds_fields c s) as (Ht & Hv & _).
  rewrite Ht, Hv. unfold deliverBuilds.
  destruct (buildsFetcher s) as [|t|t v] eqn:Hf; try discriminate.
  destruct (cachedBuilds t v s); [|discriminate].
  intros [= <-]. apply buildsFetcher_key in Hf as [-> ->]. eauto.
Qed.

Lemma rekey_buildsOfKey (c : Catalog) (old s s' : App) :
  (type s = type old -> version s = version old -> buildsOfKey c s) ->
  rekey c old s = Normal s' -> buildsOfKey c s'.
Proof.
  intros H. unfold rekey. destruct (type s === type old) eqn:Ht.
  - intros [= <-]. apply strictEq_eq in Ht. unfold rekeyBuilds.
    destruct (version s === version old) eqn:Hv.
    + apply strictEq_eq in Hv. auto.
    + apply deliverBuilds_ofKey.
  - destruct (versionsEffect _) as [s2|]; [|discriminate].
    cbn [bind]. intros [= <-]. apply deliverBuilds_ofKey.
Qed.

Lemma buildsOfKey_ext (c : Catalog) (a b : App) :
  builds b = builds a -> type b = type a -> version b = version a ->
  buildsOfKey c a -> buildsOfKey c b.
Proof.
  intros Hb Ht Hv H bs Hbs. rewrite Ht, Hv. apply H. now rewrite <- Hb.
Qed.

Lemma step_buildsOfKey (c : Catalog) (e : Event) (s s' : App) :
  buildsOfKey c s -> step c e s = Normal s' -> buildsOfKey c s'.
Proof.
  intros Hk Hstep. destruct e; cbv beta iota zeta delta [step] in Hstep.
  - destruct (typesEffect _) as [s1|] eqn:He; [|discriminate].
    cbn [bind] in Hstep. apply (rekey_buildsOfKey c s s1); [|exact Hstep].
    intros Ht Hv. apply (buildsOfKey_ext c s); try assumption.
    now apply typesEffect_builds in He.
  - destruct (versionsEffect _) as [s1|] eqn:He; [|discriminate].
    cbn [bind] in Hstep. apply (rekey_buildsOfKey c s s1); [|exact Hstep].
    intros Ht Hv. apply (buildsOfKey_ext c s); try assumption.
    apply versionsEffect_builds in He. rewrite He.
    now destruct (versionsFetcher s).
  - destruct (buildsFetcher s) as [|t|t v] eqn:Hf; injection Hstep as <-;
      intros bs; cbn [builds setBuilds setBuildsCache type version];
      try discriminate.
    intros [= <-]. apply buildsFetcher_key in Hf as [-> ->]. eauto.
  - destruct (types s) as [ts|]; [|now injection Hstep as <-].
    destruct (nth_error ts i) as [t|]; [|now injection Hstep as <-].
    destruct (_ === _); [now injection Hstep as <-|].
    apply (rekey_buildsOfKey c s (onClickType t s)); [|exact Hstep].
    intros Ht Hv. now apply (buildsOfKey_ext c s).
  - destruct (renderedVersions s) as [vs|]; [|now injection Hstep as <-].
    destruct (nth_error vs i) as [v|]; [|now injection Hstep as <-].
    destruct (_ === _); [now injection Hstep as <-|].
    destruct (versionsEffect _) as [s1|] eqn:He; [|discriminate].
    cbn [bind] in Hstep. apply (rekey_buildsOfKey c s s1); [|exact Hstep].
    intros Ht Hv. apply (buildsOfKey_ext c s); try assumption.
    now apply versionsEffect_builds in He.
  - destruct (renderedBuilds s) as [bs|]; [|now injection Hstep as <-].
    destruct (nth_error bs i) as [b|]; [|now injection Hstep as <-].
    destruct (build s) as [b'|]; [destruct (_ =? _)|];
      injection Hstep as <-; exact Hk.
  - injection Hstep as <-. exact Hk.
  - destruct (renderedVersions s); [|now injection Hstep as <-].
    destruct (versions s) as [vs|]; [|now injection Hstep as <-].
    destruct (existsb _ vs); injection Hstep as <-; exact Hk.
Qed.

Lemma run_buildsOfKey (c : Catalog) (es : list Event) (s s' : App) :
  buildsOfKey c s -> run c es s = Normal s' -> buildsOfKey c s'.
Proof.
  revert s. induction es as [|e r IH]; intros s Hk Hrun; simpl in Hrun.
  - now injection Hrun as <-.
  - destruct (step c e s) as [s1|] eqn:He; [|discriminate].
    simpl in Hrun. eapply IH; [|exact Hrun]. eapply step_buildsOfKey; eauto.
Qed.

(** X9: in every reachable state the build list on display is the one of the
    selected type and version, so a build opened by a click belongs to
    the selection of that moment. *)
Theorem opened_build_belongs (c : Catalog) (snap : maybe bool)
    (t0 v0 : maybe string) (es : list Event) (s s' : App) (i : nat) :
  run c es (mount snap t0 v0) = Normal s ->
  step c (ClickBuild i) s = Normal s' -> build s' <> build s ->
  exists b t v, build s' = Some b /\ type s' = val t /\ version s' = val v
                /\ In b (catBuilds c t v).
Proof.
  intros Hrun Hstep Hne.
  assert (Hk : buildsOfKey c s).
  { eapply run_buildsOfKey; [|exact Hrun]. intros bs Hbs. discriminate Hbs. }
  cbv beta iota zeta delta [step] in Hstep.
  destruct (renderedBuilds s) as [bs|] eqn:Hr;
    [|injection Hstep as <-; now elim Hne].
  destruct (nth_error bs i) as [b|] eqn:Hn;
    [|injection Hstep as <-; now elim Hne].
  assert (Hs' : s' = onClickBuild b s).
  { destruct (build s) as [b'|] eqn:Hbs; [destruct (_ =? _)|];
      injection Hstep as <-; try reflexivity. now elim Hne. }
  subst s'. unfold renderedBuilds in Hr.
  destruct (builds s) as [bs'|] eqn:Hb; [|discriminate].
  destruct (versions s); [|discriminate]. destruct (types s); [|discriminate].
  destruct (negb _); [|discriminate]. injection Hr as ->.
  destruct (Hk bs Hb) as (t & v & Ht & Hv & ->).
  exists b, t, v. simpl. repeat split; try assumption.
  now apply nth_error_In in Hn.
Qed.

Lemma opened_build_belongs_witness :
  exists b t v,
    build (onClickBuild (sampleBuild 1 "vanilla" "1.21") vanillaBuilds) = Some b
    /\ type (onClickBuild (sampleBuild 1 "vanilla" "1.21") vanillaBuilds) = val t
    /\ version (onClickBuild (sampleBuild 1 "vanilla" "1.21") vanillaBuilds) = val v
    /\ In b (catBuilds sampleCatalog t v).
Proof.
  apply (opened_build_belongs sampleCatalog undefined undefined undefined
           [TypesResolved; VersionsResolved; BuildsResolved] vanillaBuilds
           (onClickBuild (sampleBuild 1 "vanilla" "1.21") vanillaBuilds) 0).
  - reflexivity.
  - reflexivity.
  - discriminate.
Defined.

(** ** The rendered version list *)

Lemma filter_all {A} (p : A -> bool) (l : list A) :
  (forall x, In x l -> p x = true) -> filter p l = l.
Proof.
  induction l as [|a r IH]; intros H; simpl; [reflexivity|].
  rewrite (H a (or_introl eq_refl)). f_equal. apply IH.
  intros x Hx. apply H. now right.
Qed.

Lemma versionShown_cases (s : App) (v : Version.t) :
  versionShown s v = false <->
  Version.type v = val SNAPSHOT /\ Version.derivedId v <> version s
  /\ truthyBool (includeSnapshots s) = false.
Proof.
  unfold versionShown, Version.untagged, Version.isRelease, Version.isSnapshot.
  destruct (Version.derivedId v === version s) eqn:Hd.
  - apply strictEq_eq in Hd. rewrite orb_true_r. simpl. split.
    + discriminate.
    + intros (_ & Hne & _). now elim Hne.
  - assert (Hne : Version.derivedId v <> version s).
    { intros He. apply strictEq_eq in He. rewrite He in Hd. discriminate. }
    destruct (Version.type v) as [| |[|]]; simpl;
      try (split; [discriminate | intros (H & _); discriminate H]).
    destruct (truthyBool (includeSnapshots s)); simpl; split;
      try discriminate; try (intros (_ & _ & H); discriminate H); auto.
Qed.

(** X10: whatever the flag, an entry of the version list is left out of the
    rendered list only if it is a snapshot, is not the selected version,
    and the flag is not set; the rendered list holds nothing else than
    entries of the version list. *)
Theorem hidden_only_unselected_snapshots (s : App) (vs shown : list Version.t)
    (v : Version.t) :
  versions s = Some vs -> renderedVersions s = Some shown ->
  (In v shown -> In v vs)
  /\ (In v vs -> ~ In v shown ->
      Version.type v = val SNAPSHOT /\ Version.derivedId v <> version s
      /\ truthyBool (includeSnapshots s) = false).
Proof.
  intros Hvs Hr. unfold renderedVersions in Hr. rewrite Hvs in Hr.
  destruct (types s); [|discriminate].
  destruct (negb _); [|discriminate]. injection Hr as <-. split.
  - intros H. now apply filter_In in H.
  - intros Hin Hout. apply versionShown_cases.
    destruct (versionShown s v) eqn:Hs; [|reflexivity].
    elim Hout. apply filter_In. auto.
Qed.

Lemma hidden_only_unselected_snapshots_witness :
  Version.type (sampleVersion "1.21-pre1" (val SNAPSHOT)) = val SNAPSHOT
  /\ Version.derivedId (sampleVersion "1.21-pre1" (val SNAPSHOT))
     <> version vanillaShown
  /\ truthyBool (includeSnapshots vanillaShown) = false.
Proof.
  apply (proj2 (hidden_only_unselected_snapshots vanillaShown
                  (catVersions sampleCatalog "vanilla")
                  [sampleVersion "1.21" (val RELEASE)]
                  (sampleVersion "1.21-pre1" (val SNAPSHOT))
                  eq_refl eq_refl)).
  - right. left. reflexivity.
  - intros [H|[]]. discriminate H.
Defined.

(** X11: with the flag set, or for a list without snapshots, the rendered
    list is the whole version list in its order. *)
Theorem all_versions_shown (s : App) (vs : list Version.t)
    (ts : list MinecraftType.t) :
  versions s = Some vs -> types s = Some ts -> validatingVersions s = false ->
  truthyBool (includeSnapshots s) = true \/ existsb Version.isSnapshot vs = false ->
  renderedVersions s = Some vs.
Proof.
  intros Hvs Hts Hval H. unfold renderedVersions. rewrite Hvs, Hts, Hval.
  simpl. f_equal. apply filter_all. intros v Hin.
  destruct (versionShown s v) eqn:Hs; [reflexivity|].
  apply versionShown_cases in Hs as (Ht & _ & Hf).
  destruct H as [H|H].
  - rewrite H in Hf. discriminate.
  - assert (He : existsb Version.isSnapshot vs = true).
    { apply existsb_exists. exists v. split; [exact Hin|].
      unfold Version.isSnapshot. now rewrite Ht. }
    rewrite He in H. discriminate.
Qed.

Lemma all_versions_shown_witness :
  renderedVersions (setIncludeSnapshots (val true) vanillaShown)
  = Some (catVersions sampleCatalog "vanilla").
Proof.
  apply (all_versions_shown (setIncludeSnapshots (val true) vanillaShown)
           (catVersions sampleCatalog "vanilla") (catTypes sampleCatalog));
    try reflexivity.
  left. reflexivity.
Defined.

(** X12: two clicks on the snapshot button give back the same rendered list;
    the flag itself need not be what it was, an unset flag ends as
    [false]. *)
Theorem toggle_twice_same_list (s : App) :
  renderedVersions (onClickIncludeSnapshots (onClickIncludeSnapshots s))
  = renderedVersions s
  /\ includeSnapshots (onClickIncludeSnapshots (onClickIncludeSnapshots s))
     = val (truthyBool (includeSnapshots s)).
Proof.
  split.
  - unfold renderedVersions.
    cbn [versions types validatingVersions onClickIncludeSnapshots
         setIncludeSnapshots].
    destruct (versions s) as [vs|]; [|reflexivity].
    destruct (types s); [|reflexivity].
    destruct (negb (validatingVersions s)); [|reflexivity].
    f_equal. apply filter_ext. intros v. unfold versionShown.
    cbn [version includeSnapshots onClickIncludeSnapshots setIncludeSnapshots
         truthyBool].
    now rewrite negb_involutive.
  - cbn [includeSnapshots onClickIncludeSnapshots setIncludeSnapshots truthyBool].
    now rewrite negb_involutive.
Qed.

(** ** The identification flow *)

(** X13: the identification drawer is open exactly when the flow is not at
    rest, and what it shows follows the held build first: a held build is
    displayed even while a newer file is being hashed, the skeleton only
    when loading with nothing held, the prompt only when dragging alone. *)
Theorem drawer_follows_flow (s : App) :
  jarDrawerOpen s = negb (isIdle s)
  /\ (forall b, jarDrawerView s = JarResult b <-> jarDropBuild s = Some b)
  /\ (jarDrawerView s = JarSkeleton <->
      isJarDropLoading s = true /\ jarDropBuild s = None)
  /\ (jarDrawerOpen s = true /\ jarDrawerView s = DropPrompt <->
      isDragging s = true /\ isJarDropLoading s = false
      /\ jarDropBuild s = None).
Proof.
  unfold jarDrawerOpen, isIdle, jarDrawerView.
  split; [|split; [|split]].
  - now destruct (isDragging s), (isJarDropLoading s), (jarDropBuild s).
  - intros b. destruct (jarDropBuild s) as [b'|].
    + split; congruence.
    + destruct (negb (isJarDropLoading s)); split; discriminate.
  - destruct (jarDropBuild s) as [b'|].
    + split; [discriminate | intros [_ H]; discriminate H].
    + destruct (isJarDropLoading s); simpl; split; auto.
      * discriminate.
      * intros [H _]. discriminate H.
  - destruct (isDragging s), (isJarDropLoading s), (jarDropBuild s) as [b'|];
      simpl; split; auto;
      try (intros [H1 H2]; discriminate);
      try (intros (H1 & H2 & H3); discriminate).
Qed.

(** X14: a drop on a page that holds an earlier result keeps that result on
    display while the new file is read and hashed: the loading flag is
    up, the view is still the old build. *)
Theorem held_result_shown_while_hashing (remote : Remote)
    (f : list Byte.byte) (rest : list (list Byte.byte)) (p : Page)
    (b : PartialMinecraftBuild) :
  jarDropBuild (app p) = Some b -> pending p = [] ->
  let hashing := dropRun remote [Drop (Some (f :: rest)); Complete 0] p in
  isJarDropLoading (app hashing) = true
  /\ jarDrawerView (app hashing) = JarResult b
  /\ pending hashing = [LookingUp (hashHex f)].
Proof.
  intros Hb Hp. destruct p as [s q]. simpl in Hb, Hp. subst q.
  cbn -[hashHex]. unfold jarDrawerView. cbn -[hashHex]. rewrite Hb. auto.
Qed.

Lemma held_result_shown_while_hashing_witness :
  jarDrawerView
    (app (dropRun sampleRemote [Drop (Some [jarC]); Complete 0]
            {| app := setJarDropBuild (Some buildA) initial; pending := [] |}))
  = JarResult buildA.
Proof.
  apply (held_result_shown_while_hashing sampleRemote jarC []
           {| app := setJarDropBuild (Some buildA) initial; pending := [] |}
           buildA eq_refl eq_refl).
Defined.

(** X15: when nothing is loading, a dismissal of the identification drawer
    puts the flow at rest and discards the held build; the selection is
    not touched. *)
Theorem dismissal_reaches_rest (s : App) :
  isJarDropLoading s = false ->
  isIdle (onJarOpenChange false s) = true
  /\ jarDrawerOpen (onJarOpenChange false s) = false
  /\ type (onJarOpenChange false s) = type s
  /\ version (onJarOpenChange false s) = version s
  /\ build (onJarOpenChange false s) = build s.
Proof.
  intros Hl. unfold onJarOpenChange, isIdle, jarDrawerOpen. rewrite Hl.
  simpl. rewrite Hl. auto.
Qed.

Lemma dismissal_reaches_rest_witness :
  isIdle (onJarOpenChange false (setJarDropBuild (Some buildA) initial)) = true.
Proof.
  apply (dismissal_reaches_rest (setJarDropBuild (Some buildA) initial)).
  reflexivity.
Defined.

Lemma idle_fields (s : App) :
  isIdle s = true ->
  isDragging s = false /\ isJarDropLoading s = false /\ jarDropBuild s = None.
Proof.
  unfold isIdle.
  destruct (isDragging s), (isJarDropLoading s), (jarDropBuild s);
    simpl; try discriminate; auto.
Qed.

(** X16: from rest, one identification ends where it began.  A file dragged
    in and dropped, read and looked up: if the service knows it, its build
    is held with nothing pending and a dismissal gives back the very page
    of the start; if the lookup is rejected, the page of the start is back
    at once.  Only the first of the dropped files counts. *)
Theorem identification_round_trip (remote : Remote) (f : list Byte.byte)
    (rest : list (list Byte.byte)) (p : Page) :
  isIdle (app p) = true -> pending p = [] ->
  (forall b, remote (hashHex f) = Resolved b ->
     let held := dropRun remote
                   [DragEnter; Drop (Some (f :: rest)); Complete 0; Complete 0] p in
     jarDropBuild (app held) = Some b
     /\ isJarDropLoading (app held) = false /\ pending held = []
     /\ dropStep remote (JarOpenChange false) held = p)
  /\ ((forall b, remote (hashHex f) <> Resolved b) ->
      dropRun remote
        [DragEnter; Drop (Some (f :: rest)); Complete 0; Complete 0] p = p).
Proof.
  intros Hi Hp. destruct p as [s q]. simpl in Hi, Hp. subst q.
  apply idle_fields in Hi as (Hd & Hl & Hb).
  destruct s as [inc ty ver bu dr lo jb tys vss vv bss vb].
  simpl in Hd, Hl, Hb. subst dr lo jb. split.
  - intros b Hr. cbn -[hashHex]. rewrite Hr. cbn -[hashHex]. auto.
  - intros Hr. cbn -[hashHex].
    destruct (remote (hashHex f)) as [b| |] eqn:He;
      [now elim (Hr b) | reflexivity | reflexivity].
Qed.

Lemma identification_round_trip_witness :
  dropStep sampleRemote (JarOpenChange false)
    (dropRun sampleRemote
       [DragEnter; Drop (Some [jarA; jarC]); Complete 0; Complete 0] idlePage)
  = idlePage.
Proof.
  apply (proj1 (identification_round_trip sampleRemote jarA [jarC] idlePage
                  eq_refl eq_refl) buildA).
  vm_compute. reflexivity.
Defined.

(** ** The digest string and the lookup address *)

(** X17: distinct digests are printed differently: the two-digit padding makes
    the rendering of byte sequences one-to-one. *)
Theorem hexOfBytes_injective (l1 l2 : list Z) :
  Forall (fun b => 0 <= b < 256) l1 -> Forall (fun b => 0 <= b < 256) l2 ->
  hexOfBytes l1 = hexOfBytes l2 -> l1 = l2.
Proof.
  intros H1 H2 He.
  apply bytesOfHex_hexOfBytes in H1. apply bytesOfHex_hexOfBytes in H2.
  rewrite He in H1. rewrite H1 in H2. now injection H2.
Qed.

Lemma hexOfBytes_injective_witness : [1; 171] = [1; 171].
Proof.
  apply (hexOfBytes_injective [1; 171] [1; 171]).
  - repeat constructor; lia.
  - repeat constructor; lia.
  - reflexivity.
Defined.

Lemma allChars_app (p : ascii -> bool) (a b : string) :
  allChars p (a ++ b) = allChars p a && allChars p b.
Proof.
  induction a as [|c a IH]; simpl; [reflexivity|].
  now rewrite IH, andb_assoc.
Qed.

Lemma allChars_weaken (p q : ascii -> bool) (s : string) :
  (forall c, p c = true -> q c = true) ->
  allChars p s = true -> allChars q s = true.
Proof.
  intros H. induction s as [|c s IH]; simpl; [reflexivity|].
  intros Hs. apply andb_prop in Hs as [Hc Hr].
  now rewrite (H c Hc), IH.
Qed.

Lemma hexDigit_isHexDigit (d : Z) : isHexDigit (hexDigit d) = true.
Proof.
  unfold hexDigit. generalize (Z.to_nat d). intros n.
  do 17 (destruct n as [|n]; [reflexivity|]). reflexivity.
Qed.

Lemma isHexDigit_notSlash (c : ascii) : isHexDigit c = true -> notSlash c = true.
Proof.
  unfold notSlash. destruct (Ascii.eqb_spec c "/"%char) as [->|]; [|reflexivity].
  discriminate.
Qed.

Lemma hexOfBytes_hex (l : list Z) :
  Forall (fun b => 0 <= b < 256) l -> allChars isHexDigit (hexOfBytes l) = true.
Proof.
  induction 1 as [|b l Hb Hl IH].
  - reflexivity.
  - rewrite hexOfBytes_cons by assumption. unfold twoDigits.
    cbn [append allChars]. now rewrite !hexDigit_isHexDigit, IH.
Qed.

Lemma split_nonempty (sep : ascii) (s : string) : split sep s <> [].
Proof.
  destruct s as [|c r]; simpl; [discriminate|].
  destruct (Ascii.eqb c sep); [discriminate|].
  destruct (split sep r); discriminate.
Qed.

Lemma split_no_sep (sep : ascii) (s : string) :
  allChars (fun c => negb (Ascii.eqb c sep)) s = true -> split sep s = [s].
Proof.
  induction s as [|c r IH]; simpl; [reflexivity|].
  intros H. apply andb_prop in H as [Hc Hr].
  destruct (Ascii.eqb c sep); [discriminate|]. now rewrite IH.
Qed.

Lemma split_app (sep : ascii) (a b : string) :
  split sep (a ++ String sep b) = (split sep a ++ split sep b)%list.
Proof.
  induction a as [|c a IH]; simpl.
  - now rewrite Ascii.eqb_refl.
  - destruct (Ascii.eqb c sep); [now rewrite IH|]. rewrite IH.
    destruct (split sep a) as [|x xs] eqn:Hs; [|reflexivity].
    now elim (split_nonempty sep a).
Qed.

Lemma pop_app {A} (l1 l2 : list A) : l2 <> [] -> pop (l1 ++ l2)%list = pop l2.
Proof.
  intros H. induction l1 as [|x r IH]; [reflexivity|].
  change ((x :: r) ++ l2)%list with (x :: (r ++ l2))%list.
  destruct (r ++ l2)%list as [|y ys] eqn:He.
  - apply app_eq_nil in He as [_ He]. now elim H.
  - exact IH.
Qed.

(** X18: the digest string is made of the characters [0-9a-f] only, so in the
    lookup address it is one whole path segment, the last of seven. *)
Theorem lookup_address_segments (fileBytes : list Byte.byte) :
  allChars isHexDigit (hashHex fileBytes) = true
  /\ split "/"%char (buildUrl (hashHex fileBytes))
     = ["https:"; ""; "mc.rjns.dev"; "api"; "v1"; "build"; hashHex fileBytes]
  /\ pop (split "/"%char (buildUrl (hashHex fileBytes)))
     = Some (hashHex fileBytes).
Proof.
  assert (Hh : allChars isHexDigit (hashHex fileBytes) = true).
  { unfold hashHex. apply hexOfBytes_hex, digest_bytes. }
  assert (Hs : split "/"%char (hashHex fileBytes) = [hashHex fileBytes]).
  { apply split_no_sep.
    apply (allChars_weaken isHexDigit); [|exact Hh].
    exact isHexDigit_notSlash. }
  assert (Hu : split "/"%char (buildUrl (hashHex fileBytes))
               = ["https:"; ""; "mc.rjns.dev"; "api"; "v1"; "build";
                  hashHex fileBytes]).
  { unfold buildUrl. generalize dependent (hashHex fileBytes). intros h _ Hs.
    cbn [append split Ascii.eqb Bool.eqb]. rewrite Hs. reflexivity. }
  split; [exact Hh|]. split; [exact Hu|]. rewrite Hu. reflexivity.
Qed.

(** ** The build drawer *)

Lemma length_append (a b : string) :
  String.length (a ++ b) = (String.length a + String.length b)%nat.
Proof. induction a as [|c a IH]; simpl; [reflexivity|now rewrite IH]. Qed.

Lemma substring_prefix (a b : string) :
  substring 0 (String.length a) (a ++ b) = a.
Proof.
  induction a as [|c a IH]; simpl.
  - now destruct b.
  - now rewrite IH.
Qed.

Lemma substring_length (n : nat) (s : string) :
  (n <= String.length s)%nat -> String.length (substring 0 n s) = n.
Proof.
  revert n. induction s as [|c s IH]; intros [|n] H; simpl in *;
    try reflexivity; try lia.
  rewrite IH; lia.
Qed.

Lemma substring_allChars (p : ascii -> bool) (n : nat) (s : string) :
  allChars p s = true -> allChars p (substring 0 n s) = true.
Proof.
  revert n. induction s as [|c s IH]; intros [|n] H; simpl in *;
    try reflexivity.
  apply andb_prop in H as [Hc Hs]. now rewrite Hc, IH.
Qed.

Lemma split_segments (sep : ascii) (s : string) :
  Forall (fun seg => allChars (fun c => negb (Ascii.eqb c sep)) seg = true)
         (split sep s).
Proof.
  induction s as [|c r IH]; simpl.
  - repeat constructor.
  - destruct (Ascii.eqb c sep) eqn:Hc.
    + constructor; [reflexivity|exact IH].
    + destruct (split sep r) as [|x xs]; [repeat constructor; simpl; now rewrite Hc|].
      inversion IH as [|? ? Hx Hxs]; subst.
      constructor; [|exact Hxs]. simpl. now rewrite Hc, Hx.
Qed.

Lemma pop_In {A} (l : list A) (x : A) : pop l = Some x -> In x l.
Proof.
  induction l as [|a r IH]; [discriminate|].
  destruct r as [|b r'].
  - intros [= ->]. now left.
  - intros H. right. apply IH. exact H.
Qed.

Lemma pop_some {A} (l : list A) : l <> [] -> exists x, pop l = Some x.
Proof.
  induction l as [|a r IH]; [now intros H; elim H|]. intros _.
  destruct r as [|b r']; [now exists a|].
  destruct IH as [x Hx]; [discriminate|]. now exists x.
Qed.

(** X19: for an address that ends in [/NAME] followed by a four-character
    extension such as [.zip], the start jar shown is [NAME]. *)
Theorem startJarName_strips (dir name ext : string) :
  allChars notSlash (name ++ ext) = true -> String.length ext = 4%nat ->
  startJarName (dir ++ String "/"%char (name ++ ext)) = Some name.
Proof.
  intros Hn He. unfold startJarName.
  rewrite split_app, pop_app by apply split_nonempty.
  rewrite split_no_sep by exact Hn. cbn [pop option_map]. f_equal.
  unfold sliceEnd. rewrite length_append, He.
  replace (String.length name + 4 - 4)%nat with (String.length name) by lia.
  apply substring_prefix.
Qed.

Lemma startJarName_strips_witness :
  startJarName "https://example.org/files/forge-1.20.1-47.2.0.jar.zip"
  = Some "forge-1.20.1-47.2.0.jar".
Proof.
  apply (startJarName_strips "https://example.org/files"
           "forge-1.20.1-47.2.0.jar" ".zip"); reflexivity.
Defined.

(** X21: for every address the start jar shown is defined: it is the part
    after the last slash, or the whole address if it has none, without
    its last four characters; it holds no slash, and it is empty when
    that part has at most four characters. *)
Theorem startJarName_defined (zipUrl : string) :
  exists seg,
    pop (split "/"%char zipUrl) = Some seg
    /\ allChars notSlash seg = true
    /\ startJarName zipUrl = Some (sliceEnd 4 seg)
    /\ allChars notSlash (sliceEnd 4 seg) = true
    /\ String.length (sliceEnd 4 seg) = (String.length seg - 4)%nat.
Proof.
  destruct (pop_some (split "/"%char zipUrl) (split_nonempty _ _)) as [seg Hp].
  exists seg.
  assert (Hs : allChars notSlash seg = true).
  { pose proof (split_segments "/"%char zipUrl) as Hall.
    rewrite Forall_forall in Hall. apply (Hall seg). now apply pop_In. }
  split; [exact Hp|]. split; [exact Hs|].
  unfold startJarName. rewrite Hp. split; [reflexivity|].
  unfold sliceEnd. split.
  - now apply substring_allChars.
  - apply substring_length. lia.
Qed.

(** X22: the installation text and the download buttons agree: there are
    instructions exactly when there is something to download, the text
    then ends with the jar to start, and a jar offered without a zip is
    always to be started as [server.jar], whatever [jarLocation] says. *)
Theorem instructions_match_downloads (b : PartialMinecraftBuild) :
  (instructions b = [] <-> downloads b = [])
  /\ (instructions b <> [] ->
      exists name, last (instructions b) DeleteLibraries = StartJar name)
  /\ (present (Build.jarUrl b) = true -> present (Build.zipUrl b) = false ->
      instructions b
      = [PlaceJar; RenameJar "server.jar"; StartJar (Some "server.jar")]).
Proof.
  unfold instructions, downloads, present.
  destruct (Build.zipUrl b) as [| |z]; destruct (Build.jarUrl b) as [| |j];
    cbn [truthyString andb negb app];
    try (destruct (negb (String.eqb z "")));
    try (destruct (negb (String.eqb j "")));
    repeat split; intros; simpl in *; try reflexivity; try discriminate;
    try congruence; eauto.
Qed.

Lemma instructions_match_downloads_witness :
  instructions (sampleBuild 1 "vanilla" "1.21")
  = [PlaceJar; RenameJar "server.jar"; StartJar (Some "server.jar")].
Proof.
  apply (proj2 (proj2 (instructions_match_downloads
                         (sampleBuild 1 "vanilla" "1.21")))); reflexivity.
Defined.

(** Closing the build drawer clears the open build and nothing else; an
    [onOpenChange(true)] leaves the whole state as it is. *)
Theorem build_drawer_change (s : App) :
  onBuildOpenChange true s = s
  /\ build (onBuildOpenChange false s) = None
  /\ setBuild (build s) (onBuildOpenChange false s) = s.
Proof.
  destruct s. repeat split.
Qed.

(** ** Pending work *)

Lemma complete_read (remote : Remote) (s : App) (f : list Byte.byte)
    (r : list Task) :
  dropStep remote (Complete 0) {| app := s; pending := Reading f :: r |}
  = {| app := setIsJarDropLoading true s;
       pending := LookingUp (hashHex f) :: r |}.
Proof. reflexivity. Qed.

Lemma complete_lookup (remote : Remote) (s : App) (h : string)
    (r : list Task) :
  dropStep remote (Complete 0) {| app := s; pending := LookingUp h :: r |}
  = {| app := onLookup (remote h) s; pending := r |}.
Proof. reflexivity. Qed.

Lemma onLookup_not_loading (o : LookupOutcome) (s : App) :
  isJarDropLoading (onLookup o s) = false.
Proof. now destruct o. Qed.

Lemma dropRun_app (remote : Remote) (es1 es2 : list DropEvent) (p : Page) :
  dropRun remote (es1 ++ es2)%list p
  = dropRun remote es2 (dropRun remote es1 p).
Proof. unfold dropRun. apply fold_left_app. Qed.

Lemma drain_pending (remote : Remote) (q : list Task) (s : App) :
  q <> [] ->
  pending (dropRun remote (repeat (Complete 0) (workLeft q))
             {| app := s; pending := q |}) = []
  /\ isJarDropLoading
       (app (dropRun remote (repeat (Complete 0) (workLeft q))
               {| app := s; pending := q |})) = false.
Proof.
  revert s. induction q as [|t r IH]; intros s Hq; [now elim Hq|].
  assert (Hstep : exists s', isJarDropLoading s' = false
            /\ dropRun remote (repeat (Complete 0) (callbacksLeft t))
                 {| app := s; pending := t :: r |}
               = {| app := s'; pending := r |}).
  { destruct t as [f|h].
    - exists (onLookup (remote (hashHex f)) (setIsJarDropLoading true s)).
      split; [apply onLookup_not_loading|].
      cbn [callbacksLeft repeat dropRun fold_left].
      now rewrite complete_read, complete_lookup.
    - exists (onLookup (remote h) s).
      split; [apply onLookup_not_loading|].
      cbn [callbacksLeft repeat dropRun fold_left].
      now rewrite complete_lookup. }
  destruct Hstep as (s' & Hl & Hrun).
  cbn [workLeft fold_right]. fold (workLeft r).
  rewrite repeat_app, dropRun_app, Hrun.
  destruct r as [|t' r'].
  - cbn [workLeft fold_right repeat dropRun fold_left app pending]. auto.
  - apply IH. discriminate.
Qed.

(** X20: whatever is pending, reads or lookups, left by however many
    drops: once each piece of work has made its callbacks, nothing is
    pending and the loading flag is down, whether the lookups resolved or
    were rejected. *)
Theorem drained_flow_not_loading (remote : Remote) (p : Page) :
  pending p <> [] ->
  pending (dropRun remote (repeat (Complete 0) (workLeft (pending p))) p) = []
  /\ isJarDropLoading
       (app (dropRun remote (repeat (Complete 0) (workLeft (pending p))) p))
     = false.
Proof.
  destruct p as [s q]. cbn [pending]. apply drain_pending.
Qed.

Lemma drained_flow_not_loading_witness :
  isJarDropLoading
    (app (dropRun sampleRemote (repeat (Complete 0) 4)
            (onDrop (Some [jarC]) (onDrop (Some [jarA]) idlePage)))) = false.
Proof.
  apply (drained_flow_not_loading sampleRemote
           (onDrop (Some [jarC]) (onDrop (Some [jarA]) idlePage))).
  discriminate.
Defined.

(** ** Instances *)

Lemma versionsEffect_throws_iff_witness :
  versionsEffect snapshotOnly = Throw TypeError.
Proof.
  apply (proj2 (versionsEffect_throws_iff snapshotOnly)).
  exists [sampleVersion "24w14a" (val SNAPSHOT)]. repeat split.
Defined.

Lemma typesEffect_throws_iff_witness :
  typesEffect (setTypes (Some []) initial) = Throw TypeError.
Proof.
  apply (proj2 (typesEffect_throws_iff (setTypes (Some []) initial))).
  split; reflexivity.
Defined.

Lemma drawer_follows_flow_witness :
  jarDrawerView (app (onDrop (Some [jarA]) idlePage)) = JarSkeleton.
Proof.
  destruct (drawer_follows_flow (app (onDrop (Some [jarA]) idlePage)))
    as (_ & _ & Hs & _).
  apply (proj2 Hs). split; reflexivity.
Defined.
